(** * Mastermind: the evaluation of a guess and the turn machine

    A shallow embedding of [mastermind_game.py] and [game_handler.py].
    The game object is a record of the attributes the handlers read and
    write; tkinter widgets are reduced to the attributes the code
    configures (background, state, text); message boxes and [print] are
    recorded in an output trace; the clock reading and the answer to the
    play-again dialog are inputs of the handler. Python list objects that
    are mutated in place ([secret_code], [remaining_colors]) live in a
    store indexed by references, so that copying and aliasing are
    distinguished. *)

From Stdlib Require Import ZArith QArith.
From stdpp Require Import base decidable option numbers list strings gmap gmultiset.

Local Open Scope string_scope.
Local Open Scope Z_scope.
Local Open Scope nat_scope.
Local Open Scope list_scope.

(** ** Exceptions and results *)

(** The Python exceptions the handlers can raise. [DanglingReference] has no
    Python counterpart: it is the outcome of the model on a store that lacks
    an object the game refers to, which no Python state does. *)
Inductive exn :=
  | TypeError
  | IndexError
  | DanglingReference.

Inductive result (A : Type) :=
  | Ok (a : A)
  | Raise (e : exn).
Arguments Ok {A} a.
Arguments Raise {A} e.

#[global] Instance result_ret : MRet result := λ A a, Ok a.
#[global] Instance result_bind : MBind result := λ A B f m,
  match m with
  | Ok a => f a
  | Raise e => Raise e
  end.

Definition of_option {A} (e : exn) (o : option A) : result A :=
  match o with
  | Some a => Ok a
  | None => Raise e
  end.

(** [for i in idx: body], threading the loop state and stopping at the first
    exception. *)
Fixpoint for_range {S} (body : nat → S → result S) (idx : list nat) (s : S) : result S :=
  match idx with
  | [] => Ok s
  | i :: idx' => s' ← body i s; for_range body idx' s'
  end.

(** ** Python sequences *)

Module Py.

(** Bound of a slice [l[a:b]]: a negative bound counts from the end, and
    bounds are clamped to [0, len]. *)
Definition slice_bound (len : nat) (i : Z) : nat :=
  if (i <? 0)%Z then Z.to_nat (Z.max 0 (i + Z.of_nat len))
  else Z.to_nat (Z.min i (Z.of_nat len)).

(** [l[a:b]] *)
Definition slice {A} (l : list A) (a b : Z) : list A :=
  let s := slice_bound (length l) a in
  let e := slice_bound (length l) b in
  take (e - s) (drop s l).

(** The position [l[i]] refers to, or [None] when it is out of range. *)
Definition position (len : nat) (i : Z) : option nat :=
  if ((0 <=? i)%Z && (i <? Z.of_nat len)%Z)%bool then Some (Z.to_nat i)
  else if ((- Z.of_nat len <=? i)%Z && (i <? 0)%Z)%bool then Some (Z.to_nat (i + Z.of_nat len))
  else None.

(** [l[i]] *)
Definition getitem {A} (l : list A) (i : Z) : result A :=
  p ← of_option IndexError (position (length l) i);
  of_option IndexError (l !! p).

(** [l.index(x)]: the first position holding [x]; [None] stands for
    [ValueError]. *)
Fixpoint index `{EqDecision A} (x : A) (l : list A) : option nat :=
  match l with
  | [] => None
  | y :: l' => if decide (y = x) then Some 0 else S <$> index x l'
  end.

(** [x in l] *)
Definition contains `{EqDecision A} (x : A) (l : list A) : bool :=
  bool_decide (x ∈ l).

(** The widgets of the slice [l[a:b]] are the widgets of [l] themselves:
    configuring each of them updates [l] at the positions of the slice. *)
Definition configure_slice {A} (f : A → A) (l : list A) (a b : Z) : list A :=
  let s := slice_bound (length l) a in
  let e := slice_bound (length l) b in
  take s l ++ (f <$> take (e - s) (drop s l)) ++ drop (s + (e - s)) l.

(** [random.choice(l)] on the raw draw [k] of the random source. *)
Definition choice {A} (l : list A) (k : nat) : result A :=
  of_option IndexError (l !! (k `mod` length l)).

End Py.

(** ** The game object *)

Definition color := string.

(** Constant attributes. *)
Definition ROWS : nat := 15.
Definition COLUMNS : nat := 4.
Definition COLORS : list color := ["red"; "blue"; "pink"; "yellow"; "green"; "cyan"].

Inductive widget_state := NORMAL | ACTIVE | DISABLED.

#[global] Instance widget_state_eq_dec : EqDecision widget_state.
Proof. solve_decision. Defined.

Record Button := mkButton {
  background : string;
  state : widget_state;
}.

(** The texts of the instructional label; [Feedback c e] is the text
    "c color(s) correct. / e color(s) in the correct location." *)
Inductive label_text :=
  | ClickStart
  | SelectFour
  | Feedback (correct_location_color_count correct_color_count : nat).

(** What the handlers show or call, in order. *)
Inductive event :=
  | ShowErrorInvalid
  | PrintWrong
  | ShowInfoWin (attempts : nat) (play_time : Z)
  | ShowWarningLose (c0 c1 c2 c3 : color)
  | AskPlayAgain
  | CallPlayAgain.

Definition loc := nat.

(** Clock readings: [time.time()] values, their difference and [int()]. *)
Class Clock (T : Type) := {
  time_sub : T → T → T;
  time_int : T → Z;
}.

(** Exact rational seconds; [int] truncates toward zero. *)
#[global] Instance Q_clock : Clock Q := {|
  time_sub := Qminus;
  time_int := λ q, Z.quot (Qnum q) (Zpos (Qden q));
|}.

Record MastermindGame (T : Type) := mkGame {
  current_row : option nat;
  secret_code : option loc;
  current_color : color;
  start_time : option T;
  button_list : list Button;
  feedback_label_list : list (list string);
  start_button : widget_state;
  submit_button : widget_state;
  instructional_label : label_text;
  lists : gmap loc (list color);
}.
Arguments mkGame {T}.
Arguments current_row {T}.
Arguments secret_code {T}.
Arguments current_color {T}.
Arguments start_time {T}.
Arguments button_list {T}.
Arguments feedback_label_list {T}.
Arguments start_button {T}.
Arguments submit_button {T}.
Arguments instructional_label {T}.
Arguments lists {T}.

(** ** Evaluation of a submission *)

(** The local variables of the evaluation in [handle_submit] and the store
    they refer to. *)
Record eval_state := mkEval {
  store : gmap loc (list color);
  correct_color_count : nat;
  correct_location_color_count : nat;
  correct_color_tracker : list bool;
  printed : list event;
}.

Definition set_store (v : gmap loc (list color)) (st : eval_state) : eval_state :=
  mkEval v (correct_color_count st) (correct_location_color_count st)
    (correct_color_tracker st) (printed st).
Definition set_correct_color_count (v : nat) (st : eval_state) : eval_state :=
  mkEval (store st) v (correct_location_color_count st)
    (correct_color_tracker st) (printed st).
Definition set_correct_location_color_count (v : nat) (st : eval_state) : eval_state :=
  mkEval (store st) (correct_color_count st) v
    (correct_color_tracker st) (printed st).
Definition set_correct_color_tracker (v : list bool) (st : eval_state) : eval_state :=
  mkEval (store st) (correct_color_count st) (correct_location_color_count st)
    v (printed st).
Definition print_wrong (st : eval_state) : eval_state :=
  mkEval (store st) (correct_color_count st) (correct_location_color_count st)
    (correct_color_tracker st) (printed st ++ [PrintWrong]).

(** [remaining_colors.index(x)] followed by [remaining_colors.pop(...)], on
    the list object [rl]; the [except ValueError] branch prints. [on_removed]
    is the rest of the [try] block. *)
Definition try_remove (rl : loc) (x : color) (on_removed : eval_state → result eval_state)
    (st : eval_state) : result eval_state :=
  remaining_colors ← of_option DanglingReference (store st !! rl);
  match Py.index x remaining_colors with
  | Some correct_color_index =>
      on_removed (set_store (<[rl := delete correct_color_index remaining_colors]> (store st)) st)
  | None => Ok (print_wrong st)
  end.

(** [correct_color_tracker[i] = True] *)
Definition mark_correct (i : nat) (st : eval_state) : result eval_state :=
  if decide (i < length (correct_color_tracker st))
  then Ok (set_correct_color_tracker (<[i := true]> (correct_color_tracker st)) st)
  else Raise IndexError.

(** Body of the first loop: [sc] is the list object of [self.secret_code],
    [rl] the one of [remaining_colors]. *)
Definition first_pass_body (sc rl : loc) (submitted_colors : list color)
    (i : nat) (st : eval_state) : result eval_state :=
  submitted ← of_option IndexError (submitted_colors !! i);
  code ← of_option DanglingReference (store st !! sc);
  secret ← of_option IndexError (code !! i);
  if decide (submitted = secret) then
    let st := set_correct_color_count (correct_color_count st + 1) st in
    try_remove rl submitted (mark_correct i) st
  else Ok st.

(** Body of the second loop. *)
Definition second_pass_body (rl : loc) (submitted_colors : list color)
    (i : nat) (st : eval_state) : result eval_state :=
  tracked ← of_option IndexError (correct_color_tracker st !! i);
  if (tracked : bool) then Ok st
  else
    submitted ← of_option IndexError (submitted_colors !! i);
    remaining_colors ← of_option DanglingReference (store st !! rl);
    if Py.contains submitted remaining_colors then
      let st := set_correct_location_color_count (correct_location_color_count st + 1) st in
      try_remove rl submitted Ok st
    else Ok st.

(** The evaluation, from the creation of the counters to the end of the
    second loop; [columns] is [self.COLUMNS]. [remaining_colors] is a new list
    object holding a copy of the secret code. *)
Definition evaluate (columns : nat) (h : gmap loc (list color)) (sc : loc)
    (submitted_colors : list color) : result (loc * eval_state) :=
  let correct_color_tracker := replicate columns false in
  code ← of_option DanglingReference (h !! sc);
  let rl := fresh (dom h) in
  let st := mkEval (<[rl := code]> h) 0 0 correct_color_tracker [] in
  st ← for_range (first_pass_body sc rl submitted_colors) (seq 0 (length submitted_colors)) st;
  st ← for_range (second_pass_body rl submitted_colors) (seq 0 (length submitted_colors)) st;
  Ok (rl, st).

(** One of the two loops over the feedback pegs: [count] pegs from
    [current_label] on get the background [bg]. *)
Fixpoint color_pegs (bg : string) (count : nat) (feedback_labels : list string)
    (current_label : nat) : result (list string * nat) :=
  match count with
  | 0 => Ok (feedback_labels, current_label)
  | S count' =>
      if decide (current_label < length feedback_labels)
      then color_pegs bg count' (<[current_label := bg]> feedback_labels) (current_label + 1)
      else Raise IndexError
  end.

Section Game.
Context {T : Type} `{!Clock T}.

Implicit Types (g : MastermindGame T) (h : gmap loc (list color)).

(** *** Attribute assignment *)

Definition set_current_row (v : option nat) g : MastermindGame T :=
  mkGame v (secret_code g) (current_color g) (start_time g) (button_list g)
    (feedback_label_list g) (start_button g) (submit_button g)
    (instructional_label g) (lists g).
Definition set_secret_code (v : option loc) g : MastermindGame T :=
  mkGame (current_row g) v (current_color g) (start_time g) (button_list g)
    (feedback_label_list g) (start_button g) (submit_button g)
    (instructional_label g) (lists g).
Definition set_current_color (v : color) g : MastermindGame T :=
  mkGame (current_row g) (secret_code g) v (start_time g) (button_list g)
    (feedback_label_list g) (start_button g) (submit_button g)
    (instructional_label g) (lists g).
Definition set_start_time (v : option T) g : MastermindGame T :=
  mkGame (current_row g) (secret_code g) (current_color g) v (button_list g)
    (feedback_label_list g) (start_button g) (submit_button g)
    (instructional_label g) (lists g).
Definition set_button_list (v : list Button) g : MastermindGame T :=
  mkGame (current_row g) (secret_code g) (current_color g) (start_time g) v
    (feedback_label_list g) (start_button g) (submit_button g)
    (instructional_label g) (lists g).
Definition set_feedback_label_list (v : list (list string)) g : MastermindGame T :=
  mkGame (current_row g) (secret_code g) (current_color g) (start_time g)
    (button_list g) v (start_button g) (submit_button g)
    (instructional_label g) (lists g).
Definition set_start_button (v : widget_state) g : MastermindGame T :=
  mkGame (current_row g) (secret_code g) (current_color g) (start_time g)
    (button_list g) (feedback_label_list g) v (submit_button g)
    (instructional_label g) (lists g).
Definition set_submit_button (v : widget_state) g : MastermindGame T :=
  mkGame (current_row g) (secret_code g) (current_color g) (start_time g)
    (button_list g) (feedback_label_list g) (start_button g) v
    (instructional_label g) (lists g).
Definition set_instructional_label (v : label_text) g : MastermindGame T :=
  mkGame (current_row g) (secret_code g) (current_color g) (start_time g)
    (button_list g) (feedback_label_list g) (start_button g) (submit_button g)
    v (lists g).
Definition set_lists (v : gmap loc (list color)) g : MastermindGame T :=
  mkGame (current_row g) (secret_code g) (current_color g) (start_time g)
    (button_list g) (feedback_label_list g) (start_button g) (submit_button g)
    (instructional_label g) v.

(** *** [__init__] and [initialize_gui] *)

Definition new_game : MastermindGame T := {|
  current_row := None;
  secret_code := None;
  current_color := default "" (COLORS !! 0);
  start_time := None;
  button_list := replicate (ROWS * COLUMNS) (mkButton "gray" DISABLED);
  feedback_label_list := replicate ROWS (replicate 4 "black");
  start_button := NORMAL;
  submit_button := DISABLED;
  instructional_label := ClickStart;
  lists := ∅;
|}.

(** *** Rows of the play area *)

(** The row in the list (top to bottom) of the row [r] of the game. *)
Definition actual_row (r : nat) : Z := (Z.of_nat ROWS - 1 - Z.of_nat r)%Z.
Definition start_index (r : nat) : Z := (actual_row r * Z.of_nat COLUMNS)%Z.
Definition end_index (r : nat) : Z := ((actual_row r + 1) * Z.of_nat COLUMNS)%Z.

Definition activate_current_row g : result (MastermindGame T) :=
  r ← of_option TypeError (current_row g);
  Ok (set_button_list
        (Py.configure_slice (λ _, mkButton "SystemButtonFace" ACTIVE)
           (button_list g) (start_index r) (end_index r)) g).

Definition deactivate_current_row g : result (MastermindGame T) :=
  r ← of_option TypeError (current_row g);
  Ok (set_button_list
        (Py.configure_slice (λ b, mkButton (background b) DISABLED)
           (button_list g) (start_index r) (end_index r)) g).

Definition increment_current_row g : result (MastermindGame T) :=
  g1 ← (if current_row g is Some _ then deactivate_current_row g else Ok g);
  let g2 :=
    match current_row g1 with
    | None => set_current_row (Some 0) g1
    | Some r => set_current_row (Some (r + 1)) g1
    end in
  activate_current_row g2.

Definition set_color (c : color) g : MastermindGame T := set_current_color c g.

Definition update_button_color (row column : nat) g : result (MastermindGame T) :=
  let index := row * COLUMNS + column in
  b ← of_option IndexError (button_list g !! index);
  Ok (set_button_list
        (<[index := mkButton (current_color g) (state b)]> (button_list g)) g).

(** *** [start_game] *)

(** One round of the code generation loop: [draws i] is the raw draw of
    the random source at round [i]. *)
Definition append_random_color (draws : nat → nat) (sc : loc) (i : nat) h :
    result (gmap loc (list color)) :=
  c ← Py.choice COLORS (draws i);
  code ← of_option DanglingReference (h !! sc);
  Ok (<[sc := code ++ [c]]> h).

Definition start_game (draws : nat → nat) (now : T) g : result (MastermindGame T) :=
  let g := set_submit_button ACTIVE (set_start_button DISABLED g) in
  let sc := fresh (dom (lists g)) in
  let g := set_lists (<[sc := []]> (lists g)) (set_secret_code (Some sc) g) in
  h ← for_range (append_random_color draws sc) (seq 0 COLUMNS) (lists g);
  let g := set_lists h g in
  g ← increment_current_row g;
  let g := set_instructional_label SelectFour g in
  Ok (set_start_time (Some now) g).


(** *** [handle_submit] *)

Definition submitted_colors_of g (r : nat) : list color :=
  background <$> Py.slice (button_list g) (start_index r) (end_index r).

(** The end of a game: the dialogs, and the callback when the player
    accepts another game. *)
Definition offer_play_again (answer : bool) : list event :=
  AskPlayAgain :: (if answer then [CallPlayAgain] else []).

(** The instructional label and the feedback pegs of row [r]. *)
Definition give_feedback (r : nat) (correct_color_count correct_location_color_count : nat)
    g : result (MastermindGame T) :=
  let g := set_instructional_label
             (Feedback correct_location_color_count correct_color_count) g in
  p ← of_option IndexError (Py.position (length (feedback_label_list g)) (actual_row r));
  feedback_labels ← of_option IndexError (feedback_label_list g !! p);
  '(feedback_labels, current_label) ←
     color_pegs "red" correct_color_count feedback_labels 0;
  '(feedback_labels, current_label) ←
     color_pegs "white" correct_location_color_count feedback_labels current_label;
  Ok (set_feedback_label_list (<[p := feedback_labels]> (feedback_label_list g)) g).

(** The end of the handler: win, loss, or the next row. *)
Definition end_turn (now : T) (answer : bool) (r : nat) (sc : loc) (has_won : bool) g :
    result (MastermindGame T * list event) :=
  if has_won then
    g ← deactivate_current_row g;
    let g := set_submit_button DISABLED g in
    t0 ← of_option TypeError (start_time g);
    let play_time := time_int (time_sub now t0) in
    Ok (g, ShowInfoWin (r + 1) play_time :: offer_play_again answer)
  else if decide (r = ROWS - 1) then
    g ← deactivate_current_row g;
    let g := set_submit_button DISABLED g in
    code ← of_option DanglingReference (lists g !! sc);
    c0 ← Py.getitem code 0;
    c1 ← Py.getitem code 1;
    c2 ← Py.getitem code 2;
    c3 ← Py.getitem code 3;
    Ok (g, ShowWarningLose c0 c1 c2 c3 :: offer_play_again answer)
  else
    g ← increment_current_row g;
    Ok (g, []).

(** [remaining_colors] is local to the handler: its list object is gone
    once the evaluation is over. *)
Definition handle_submit (now : T) (answer : bool) g :
    result (MastermindGame T * list event) :=
  r ← of_option TypeError (current_row g);
  let submitted_colors := submitted_colors_of g r in
  if forallb (λ c, Py.contains c COLORS) submitted_colors then
    sc ← of_option TypeError (secret_code g);
    '(rl, st) ← evaluate COLUMNS (lists g) sc submitted_colors;
    let g := set_lists (delete rl (store st)) g in
    let has_won := bool_decide (correct_color_count st = 4) in
    g ← give_feedback r (correct_color_count st) (correct_location_color_count st) g;
    '(g, shown) ← end_turn now answer r sc has_won g;
    Ok (g, printed st ++ shown)
  else Ok (g, [ShowErrorInvalid]).

(** *** Clicks *)

(** A tkinter button runs its command unless it is disabled. *)
Definition invoke {A} (button : widget_state) (command : A → result (A * list event))
    (a : A) : result (A * list event) :=
  if decide (button = DISABLED) then Ok (a, []) else command a.

Definition click_start (draws : nat → nat) (now : T) g :
    result (MastermindGame T * list event) :=
  invoke (start_button g) (λ g, g ← start_game draws now g; Ok (g, [])) g.

Definition click_submit (now : T) (answer : bool) g :
    result (MastermindGame T * list event) :=
  invoke (submit_button g) (handle_submit now answer) g.

Definition click_button (row column : nat) g : result (MastermindGame T * list event) :=
  match button_list g !! (row * COLUMNS + column) with
  | Some b => invoke (state b) (λ g, g ← update_button_color row column g; Ok (g, [])) g
  | None => Ok (g, [])
  end.

Definition click_palette (c : color) g : result (MastermindGame T * list event) :=
  Ok (set_color c g, []).

(** A handler run once for each input of a list, from the first on. *)
Fixpoint repeatedly (handler : T → bool → MastermindGame T →
                               result (MastermindGame T * list event))
    (inputs : list (T * bool)) g : result (MastermindGame T * list event) :=
  match inputs with
  | [] => Ok (g, [])
  | (now, answer) :: inputs' =>
      '(g, shown) ← handler now answer g;
      '(g, shown') ← repeatedly handler inputs' g;
      Ok (g, shown ++ shown')
  end.

(** *** Games being played *)

(** The widgets [initialize_gui] creates are all there. *)
Definition board_ok g : Prop :=
  length (button_list g) = ROWS * COLUMNS ∧
  length (feedback_label_list g) = ROWS ∧
  Forall (λ feedback_labels, length feedback_labels = 4) (feedback_label_list g).

(** A started game at row [r], with secret code [code], started at [t0]. *)
Definition playing g (r : nat) (code : list color) (t0 : T) : Prop :=
  board_ok g ∧
  current_row g = Some r ∧
  r < ROWS ∧
  (∃ sc, secret_code g = Some sc ∧ lists g !! sc = Some code) ∧
  length code = COLUMNS ∧
  start_time g = Some t0.

Definition in_progress g (r : nat) (code : list color) (t0 : T) : Prop :=
  playing g r code t0 ∧ submit_button g = ACTIVE.

(** A guess is valid when every color of the row is one of [COLORS]. *)
Definition valid_guess (guess : list color) : Prop :=
  Forall (λ c, c ∈ COLORS) guess.

(** *** What the player can do *)

Inductive action :=
  | PressStart (draws : nat → nat) (now : T)
  | PressPalette (c : color)
  | PressButton (row column : nat)
  | PressSubmit (now : T) (answer : bool).

Definition press (a : action) g : result (MastermindGame T * list event) :=
  match a with
  | PressStart draws now => click_start draws now g
  | PressPalette c => click_palette c g
  | PressButton row column => click_button row column g
  | PressSubmit now answer => click_submit now answer g
  end.

(** The clicks of a list, one after the other. *)
Fixpoint run (actions : list action) g : result (MastermindGame T) :=
  match actions with
  | [] => Ok g
  | a :: actions' => '(g, _) ← press a g; run actions' g
  end.

(** The states of a game object, from its creation on. *)
Inductive reachable : MastermindGame T → Prop :=
  | reachable_new : reachable new_game
  | reachable_press a g g' shown :
      reachable g → press a g = Ok (g', shown) → reachable g'.

(** Before the start the submit button is disabled; from the start on the
    start button is, and the game is being played. *)
Definition consistent g : Prop :=
  board_ok g ∧
  match current_row g with
  | None => submit_button g = DISABLED
  | Some r => start_button g = DISABLED ∧ ∃ code t0, playing g r code t0
  end.

End Game.

(** ** The rows of the board *)

(** The positions in [button_list] of the buttons of row [r] of the game. *)
Definition in_row (r i : nat) : Prop :=
  (ROWS - 1 - r) * COLUMNS ≤ i < (ROWS - 1 - r) * COLUMNS + COLUMNS.

#[global] Instance in_row_dec r i : Decision (in_row r i).
Proof. unfold in_row. apply _. Defined.

Section Board.
Context {T : Type} `{!Clock T}.
Implicit Types (g : MastermindGame T).

(** The row the player is filling: the current row, as long as the submit
    button takes clicks. *)
Definition open_row g : option nat :=
  if decide (submit_button g = DISABLED) then None else current_row g.

(** Only the buttons of the open row take clicks. *)
Definition one_row_open g : Prop :=
  ∀ i b, button_list g !! i = Some b →
    state b = match open_row g with
              | Some r => if decide (in_row r i) then ACTIVE else DISABLED
              | None => DISABLED
              end.

(** The rows that were not scored yet show four black pegs. *)
Definition unscored_rows_black g : Prop :=
  ∀ r' feedback_labels,
    r' < ROWS →
    feedback_label_list g !! (ROWS - 1 - r') = Some feedback_labels →
    match current_row g with
    | None => True
    | Some r => r < r' ∨ (r = r' ∧ submit_button g ≠ DISABLED)
    end →
    feedback_labels = replicate 4 "black".

End Board.

(** ** [game_handler.py] *)

Record GameHandler (T : Type) := mkHandler {
  game : MastermindGame T;
}.
Arguments mkHandler {T}.
Arguments game {T}.

(** [GameHandler.__init__] *)
Definition new_handler {T} : GameHandler T := mkHandler new_game.

(** [GameHandler.play_again]: the old game is dropped for a new instance. *)
Definition play_again {T} (handler : GameHandler T) : GameHandler T := mkHandler new_game.

#[global] Instance event_eq_dec : EqDecision event.
Proof. solve_decision. Defined.

Section Handler.
Context {T : Type} `{!Clock T}.

(** Whether the handler of a click called the callback [play_again]. *)
Definition called_play_again (shown : list event) : bool :=
  bool_decide (CallPlayAgain ∈ shown).

(** A click on a widget of the game the handler holds. The game was created
    with [self.play_again] as its callback: when the click ends with a call
    of it, the handler holds a new game from then on. *)
Definition handler_press (a : action) (handler : GameHandler T) :
    result (GameHandler T * list event) :=
  '(g, shown) ← press a (game handler);
  Ok (if called_play_again shown then play_again (mkHandler g) else mkHandler g, shown).

(** The states of the application, from the creation of the handler on. *)
Inductive handler_reachable : GameHandler T → Prop :=
  | handler_reachable_new : handler_reachable new_handler
  | handler_reachable_press a handler handler' shown :
      handler_reachable handler →
      handler_press a handler = Ok (handler', shown) →
      handler_reachable handler'.

End Handler.

(** ** The scoring algorithm as the specification words it *)

Module Reference.

Record score_state := mkScore {
  exactMatches : nat;
  colorMatches : nat;
  settled : gset nat;
  remaining : list color;
}.

(** Remove one occurrence of a color, by value: the first one. *)
Fixpoint remove_one (x : color) (l : list color) : list color :=
  match l with
  | [] => []
  | y :: l' => if decide (y = x) then l' else y :: remove_one x l'
  end.

Definition first_pass_step (secret guess : list color) (st : score_state) (i : nat) :
    score_state :=
  match guess !! i, secret !! i with
  | Some g, Some s =>
      if decide (g = s)
      then mkScore (exactMatches st + 1) (colorMatches st) ({[i]} ∪ settled st)
             (remove_one g (remaining st))
      else st
  | _, _ => st
  end.

Definition second_pass_step (guess : list color) (st : score_state) (i : nat) :
    score_state :=
  if decide (i ∈ settled st) then st
  else
    match guess !! i with
    | Some g =>
        if decide (g ∈ remaining st)
        then mkScore (exactMatches st) (colorMatches st + 1) (settled st)
               (remove_one g (remaining st))
        else st
    | None => st
    end.

Definition initial (secret : list color) : score_state := mkScore 0 0 ∅ secret.

Definition first_pass (columns : nat) (secret guess : list color) : score_state :=
  foldl (first_pass_step secret guess) (initial secret) (seq 0 columns).

Definition second_pass (columns : nat) (guess : list color) (st : score_state) :
    score_state :=
  foldl (second_pass_step guess) st (seq 0 columns).

Definition score (columns : nat) (secret guess : list color) : nat * nat :=
  let st := second_pass columns guess (first_pass columns secret guess) in
  (exactMatches st, colorMatches st).

End Reference.

(** ** Counting matches position by position *)

(** The positions of a secret code and a guess, paired. *)
Definition positions (secret guess : list color) : list (color * color) :=
  zip secret guess.

Definition exact (p : color * color) : Prop := p.1 = p.2.

#[global] Instance exact_dec p : Decision (exact p).
Proof. unfold exact. apply _. Defined.

(** The positions where the guess has the color of the secret code, and the
    others. *)
Definition exact_positions (secret guess : list color) : list (color * color) :=
  filter exact (positions secret guess).
Definition other_positions (secret guess : list color) : list (color * color) :=
  filter (λ p, ¬ exact p) (positions secret guess).

Definition colors_of (l : list color) : gmultiset color := list_to_set_disj l.

Definition exact_count (secret guess : list color) : nat :=
  length (exact_positions secret guess).

(** The colors the guess and the secret code share outside the exact
    positions, with multiplicity. *)
Definition color_count (secret guess : list color) : nat :=
  size (colors_of (other_positions secret guess).*2 ∩
        colors_of (other_positions secret guess).*1).

(** Rearranging the positions of a list: position [j] of the result holds
    what position [p !! j] of [l] held. *)
Definition permute {A} (p : list nat) (l : list A) : list A :=
  omap (λ i, l !! i) p.

(** ** Invariants of the evaluation *)

(** Invariants of the two passes of the reference algorithm, after the
    positions below [i]. *)
Definition first_pass_invariant (secret guess : list color) (i : nat)
    (st : Reference.score_state) : Prop :=
  Reference.exactMatches st = length (filter exact (take i (positions secret guess))) ∧
  Reference.colorMatches st = 0 ∧
  (∀ j, j ∈ Reference.settled st ↔
        j < i ∧ ∃ p, positions secret guess !! j = Some p ∧ exact p) ∧
  Reference.remaining st ≡ₚ
    (filter (λ p, ¬ exact p) (take i (positions secret guess))).*1 ++ drop i secret.

Definition second_pass_invariant (secret guess : list color) (i : nat)
    (st : Reference.score_state) : Prop :=
  Reference.exactMatches st = exact_count secret guess ∧
  (∀ j, j ∈ Reference.settled st ↔
        ∃ p, positions secret guess !! j = Some p ∧ exact p) ∧
  Reference.colorMatches st +
    size (colors_of (filter (λ p, ¬ exact p) (drop i (positions secret guess))).*2 ∩
          colors_of (Reference.remaining st))
  = color_count secret guess.

(** The local variables of the evaluation agree with a state of the reference
    algorithm: [rl] holds the remaining colors, above the store [h] of the
    game. *)
Definition simulates (h : gmap loc (list color)) (rl : loc) (columns : nat)
    (st : eval_state) (rs : Reference.score_state) : Prop :=
  store st = <[rl := Reference.remaining rs]> h ∧
  correct_color_count st = Reference.exactMatches rs ∧
  correct_location_color_count st = Reference.colorMatches rs ∧
  length (correct_color_tracker st) = columns ∧
  (∀ j, correct_color_tracker st !! j = Some true ↔ j ∈ Reference.settled rs) ∧
  printed st = [].

(** The feedback pegs of a row after a score of [e] exact matches and [c]
    color matches: red pegs first, then white ones. *)
Definition scored_pegs (e c : nat) (feedback_labels : list string) : list string :=
  replicate e "red" ++ replicate c "white" ++ drop (e + c) feedback_labels.

(** ** Sample games *)

Module Sample.

(** Clock readings: the start of the game, and 1.5 and 3.5 seconds later. *)
Definition t0 : Q := 1700000000%Q.
Definition t1 : Q := (3400000003 # 2)%Q.
Definition t2 : Q := (3400000007 # 2)%Q.

(** Clicking a color of the palette, then a button of the play area, for
    each column of a row from [column] on. *)
Fixpoint paint (row column : nat) (colors : list color) : list (action (T := Q)) :=
  match colors with
  | [] => []
  | c :: colors' => PressPalette c :: PressButton row column :: paint row (column + 1) colors'
  end.

Definition play (actions : list (action (T := Q))) : MastermindGame Q :=
  match run actions new_game with
  | Ok g => g
  | Raise _ => new_game
  end.

(** The random source draws 0, 1, 2, 3: the secret code is red, blue, pink,
    yellow; the game starts at time [t0]. *)
Definition secret : list color := ["red"; "blue"; "pink"; "yellow"].
Definition start : list (action (T := Q)) := [PressStart (λ i, i) t0].

(** First row: the secret code itself. *)
Definition winning_clicks : list (action (T := Q)) := start ++ paint 14 0 secret.
Definition winning : MastermindGame Q := play winning_clicks.

(** First row: one exact match (pink) and two color matches. *)
Definition near_clicks : list (action (T := Q)) :=
  start ++ paint 14 0 ["blue"; "red"; "pink"; "cyan"].
Definition near : MastermindGame Q := play near_clicks.

(** First row: the last button was not given a color. *)
Definition incomplete_clicks : list (action (T := Q)) :=
  start ++ paint 14 0 ["blue"; "red"; "pink"].
Definition incomplete : MastermindGame Q := play incomplete_clicks.

(** The game after the winning submission, at time [t1]. *)
Definition won_clicks : list (action (T := Q)) := winning_clicks ++ [PressSubmit t1 false].
Definition won : MastermindGame Q := play won_clicks.

(** A wrong guess on each of the rows [0 .. n-1], submitted one after the
    other. *)
Fixpoint wrong_rows (n : nat) : list (action (T := Q)) :=
  match n with
  | 0 => []
  | S n' =>
      wrong_rows n' ++ paint (14 - n') 0 ["cyan"; "cyan"; "cyan"; "cyan"]
        ++ [PressSubmit t1 false]
  end.

(** Fourteen wrong rows, then the same guess on the last row; and the game
    after its submission. *)
Definition last_row_clicks : list (action (T := Q)) :=
  start ++ wrong_rows 14 ++ paint 0 0 ["cyan"; "cyan"; "cyan"; "cyan"].
Definition last_row : MastermindGame Q := play last_row_clicks.
Definition lost_clicks : list (action (T := Q)) := last_row_clicks ++ [PressSubmit t1 false].
Definition lost : MastermindGame Q := play lost_clicks.

(** A store holding a secret code with a repeated color. *)
Definition repeated : list color := ["red"; "red"; "blue"; "green"].
Definition store_repeated : gmap loc (list color) := {[ 0 := repeated ]}.

End Sample.

(** ** Turns of a player *)

(** A turn on row [r]: the four buttons of the row are painted, then the
    row is submitted at time [now]; [answer] is the answer to the play-again
    dialog, should it be shown. *)
Definition turn (r : nat) (guess : list color * Q * bool) : list (action (T := Q)) :=
  let '(colors, now, answer) := guess in
  Sample.paint (ROWS - 1 - r) 0 colors ++ [PressSubmit now answer].

(** Turns on the rows from [r] on. *)
Fixpoint turns (r : nat) (guesses : list (list color * Q * bool)) : list (action (T := Q)) :=
  match guesses with
  | [] => []
  | guess :: guesses' => turn r guess ++ turns (r + 1) guesses'
  end.

(** A guess of [COLUMNS] colors of the palette that is not the secret code. *)
Definition wrong_guess (code : list color) (guess : list color * Q * bool) : Prop :=
  length guess.1.1 = COLUMNS ∧ valid_guess guess.1.1 ∧ guess.1.1 ≠ code.

(** * Proofs *)

(** Reading an attribute after assignments. *)
Ltac simpl_game :=
  cbn [current_row secret_code current_color start_time button_list
       feedback_label_list start_button submit_button instructional_label lists
       set_current_row set_secret_code set_current_color set_start_time
       set_button_list set_feedback_label_list set_start_button
       set_submit_button set_instructional_label set_lists] in *.

(** ** Loops *)

Lemma for_range_app {S} (body : nat → S → result S) (l k : list nat) (s : S) :
  for_range body (l ++ k) s = s' ← for_range body l s; for_range body k s'.
Proof.
  revert s. induction l as [|i l IH]; intros s; simpl; [done|].
  destruct (body i s) as [s'|e]; simpl; [apply IH | done].
Qed.

(** A loop over [0 .. n-1] whose body keeps an invariant returns, in a state
    where the invariant holds at [n]. *)
Lemma for_range_invariant {S} (Inv : nat → S → Prop) (body : nat → S → result S)
    (n : nat) (s : S) :
  Inv 0 s →
  (∀ i s, i < n → Inv i s → ∃ s', body i s = Ok s' ∧ Inv (i + 1) s') →
  ∃ s', for_range body (seq 0 n) s = Ok s' ∧ Inv n s'.
Proof.
  intros H0 Hstep. induction n as [|n IH].
  - exists s. done.
  - destruct IH as (s1 & Hrun & Hinv).
    { intros i s1 Hi. apply Hstep. lia. }
    destruct (Hstep n s1) as (s2 & Hbody & Hinv2); [lia | done |].
    exists s2. rewrite seq_S, for_range_app, Hrun. simpl.
    rewrite Hbody. simpl. split; [done|]. by rewrite Nat.add_1_r in Hinv2.
Qed.

(** ** Removing a color by value *)

Lemma index_None (x : color) (l : list color) : Py.index x l = None ↔ x ∉ l.
Proof.
  induction l as [|y l IH]; simpl.
  - split; [intros _; apply not_elem_of_nil | done].
  - rewrite not_elem_of_cons. case_decide as Hy.
    + split; [done|]. intros [Hne _]. by subst.
    + rewrite fmap_None, IH. split; [intros Hl; split; [congruence | done] | by intros [_ Hl]].
Qed.

Lemma index_remove_one (x : color) (l : list color) :
  x ∈ l → ∃ k, Py.index x l = Some k ∧ delete k l = Reference.remove_one x l.
Proof.
  induction l as [|y l IH]; simpl.
  - intros []%elem_of_nil.
  - intros Hin. case_decide as Hy.
    + by exists 0.
    + apply elem_of_cons in Hin as [->|Hin]; [done|].
      destruct (IH Hin) as (k & -> & Hdel). exists (S k). simpl. by rewrite Hdel.
Qed.

Lemma remove_one_perm (x : color) (l : list color) :
  x ∈ l → l ≡ₚ x :: Reference.remove_one x l.
Proof.
  induction l as [|y l IH]; simpl.
  - intros []%elem_of_nil.
  - intros Hin. case_decide as Hy; [by subst|].
    apply elem_of_cons in Hin as [->|Hin]; [done|].
    rewrite (IH Hin) at 1. apply Permutation_swap.
Qed.

Lemma remove_one_perm_cons (x : color) (l k : list color) :
  l ≡ₚ x :: k → Reference.remove_one x l ≡ₚ k.
Proof.
  intros Hl. apply (Permutation_cons_inv (a:=x)).
  rewrite <- remove_one_perm; [done|]. rewrite Hl. apply elem_of_cons. by left.
Qed.

Lemma length_remove_one (x : color) (l : list color) :
  x ∈ l → length (Reference.remove_one x l) + 1 = length l.
Proof. intros Hin. rewrite (remove_one_perm x l Hin) at 2. simpl. lia. Qed.

Lemma foldl_seq_invariant {S} (Inv : nat → S → Prop) (f : S → nat → S) (n : nat) (s : S) :
  Inv 0 s →
  (∀ i s, i < n → Inv i s → Inv (i + 1) (f s i)) →
  Inv n (foldl f s (seq 0 n)).
Proof.
  intros H0 Hstep. induction n as [|n IH]; [done|].
  rewrite seq_S, foldl_app. simpl. rewrite <- (Nat.add_1_r n).
  apply Hstep; [lia|]. apply IH. intros i s' Hi. apply Hstep. lia.
Qed.

(** ** Positions *)

Lemma positions_lookup (secret guess : list color) (i : nat) (s g : color) :
  secret !! i = Some s → guess !! i = Some g →
  positions secret guess !! i = Some (s, g).
Proof. intros Hs Hg. unfold positions. by rewrite lookup_zip_with, Hs, Hg. Qed.

Lemma positions_length (secret guess : list color) :
  length secret = length guess → length (positions secret guess) = length secret.
Proof. intros Hl. unfold positions. rewrite length_zip_with. lia. Qed.

Lemma positions_fst (secret guess : list color) :
  length secret = length guess → (positions secret guess).*1 = secret.
Proof. intros Hl. apply fst_zip. lia. Qed.

Lemma positions_snd (secret guess : list color) :
  length secret = length guess → (positions secret guess).*2 = guess.
Proof. intros Hl. apply snd_zip. lia. Qed.

Lemma filter_snoc {A} (P : A → Prop) `{!∀ x, Decision (P x)} (l : list A) (x : A) :
  filter P (l ++ [x]) = filter P l ++ (if decide (P x) then [x] else []).
Proof.
  induction l as [|y l IH]; simpl.
  - by rewrite filter_cons, filter_nil.
  - rewrite !filter_cons, IH. by destruct (decide (P y)).
Qed.

(** ** Shared colors *)

Lemma shared_cons_both (x : color) (X R : gmultiset color) :
  ({[+ x +]} ⊎ X) ∩ ({[+ x +]} ⊎ R) = {[+ x +]} ⊎ (X ∩ R).
Proof.
  apply gmultiset_eq. intros y.
  rewrite multiplicity_intersection, !multiplicity_disj_union, multiplicity_intersection.
  lia.
Qed.

Lemma shared_cons_absent (x : color) (X R : gmultiset color) :
  x ∉ R → ({[+ x +]} ⊎ X) ∩ R = X ∩ R.
Proof.
  intros Hx%not_elem_of_multiplicity. apply gmultiset_eq. intros y.
  rewrite !multiplicity_intersection, multiplicity_disj_union.
  destruct (decide (y = x)) as [->|Hne].
  - rewrite Hx. lia.
  - rewrite multiplicity_singleton_ne by done. lia.
Qed.

Lemma shared_empty (R : gmultiset color) : ∅ ∩ R = ∅.
Proof.
  apply gmultiset_eq. intros y.
  rewrite multiplicity_intersection, multiplicity_empty. lia.
Qed.

(** ** The reference algorithm counts the exact positions and the shared
    colors of the others *)

Section reference_passes.
Variables secret guess : list color.
Hypothesis same_length : length secret = length guess.

Lemma first_pass_invariant_initial :
  first_pass_invariant secret guess 0 (Reference.initial secret).
Proof.
  unfold first_pass_invariant. simpl. split_and!; try done.
  intros j. split; [intros []%not_elem_of_empty | intros [? _]; lia].
Qed.

Lemma first_pass_invariant_step (i : nat) (st : Reference.score_state) :
  i < length secret →
  first_pass_invariant secret guess i st →
  first_pass_invariant secret guess (i + 1) (Reference.first_pass_step secret guess st i).
Proof.
  intros Hi (Hexact & Hcolor & Hsettled & Hrem).
  destruct (lookup_lt_is_Some_2 secret i Hi) as [s Hs].
  destruct (lookup_lt_is_Some_2 guess i) as [g Hg]; [lia|].
  pose proof (positions_lookup _ _ _ _ _ Hs Hg) as Hp.
  unfold Reference.first_pass_step, first_pass_invariant.
  replace (i + 1) with (S i) by lia.
  rewrite Hs, Hg, (take_S_r _ _ _ Hp), !filter_snoc.
  rewrite (drop_S _ _ _ Hs) in Hrem.
  destruct (decide (g = s)) as [->|Hne]; simpl.
  - rewrite decide_True by done. rewrite decide_False by (by intros []).
    rewrite length_app, app_nil_r. simpl. split_and!.
    + lia.
    + done.
    + intros j. rewrite elem_of_union, elem_of_singleton, Hsettled. split.
      * intros [->|[Hj Hex]]; [|split; [lia|done]].
        split; [lia|]. exists (s, s). split; [done|reflexivity].
      * intros [Hj Hex]. destruct (decide (j = i)); [by left|right]. split; [lia|done].
    + apply remove_one_perm_cons. rewrite Hrem. by rewrite Permutation_middle.
  - rewrite decide_False by (unfold exact; simpl; congruence).
    rewrite decide_True by (unfold exact; simpl; congruence).
    rewrite app_nil_r, fmap_app. simpl. split_and!.
    + done.
    + done.
    + intros j. rewrite Hsettled. split.
      * intros [Hj Hex]. split; [lia|done].
      * intros [Hj (p & Hpj & Hex)].
        split; [|by eauto]. destruct (decide (j = i)) as [->|]; [|lia].
        rewrite Hp in Hpj. injection Hpj as <-. unfold exact in Hex. simpl in Hex. congruence.
    + by rewrite <- app_assoc.
Qed.

Lemma first_pass_sound :
  first_pass_invariant secret guess (length secret)
    (Reference.first_pass (length secret) secret guess).
Proof.
  unfold Reference.first_pass. apply foldl_seq_invariant.
  - apply first_pass_invariant_initial.
  - intros i st Hi. by apply first_pass_invariant_step.
Qed.

Lemma second_pass_invariant_initial (st : Reference.score_state) :
  first_pass_invariant secret guess (length secret) st →
  second_pass_invariant secret guess 0 st.
Proof.
  intros (Hexact & Hcolor & Hsettled & Hrem).
  rewrite take_ge in Hexact, Hrem by (rewrite positions_length; done).
  rewrite drop_all, app_nil_r in Hrem.
  split_and!.
  - done.
  - intros j. rewrite Hsettled. split; [by intros [_ ?]|].
    intros (p & Hp & Hex). split; [|by eauto].
    apply lookup_lt_Some in Hp. by rewrite positions_length in Hp.
  - rewrite Hcolor. unfold color_count, other_positions, colors_of. simpl.
    by rewrite Hrem.
Qed.

Lemma second_pass_invariant_step (i : nat) (st : Reference.score_state) :
  i < length secret →
  second_pass_invariant secret guess i st →
  second_pass_invariant secret guess (i + 1) (Reference.second_pass_step guess st i).
Proof.
  intros Hi (Hexact & Hsettled & Hcount).
  destruct (lookup_lt_is_Some_2 secret i Hi) as [s Hs].
  destruct (lookup_lt_is_Some_2 guess i) as [g Hg]; [lia|].
  pose proof (positions_lookup _ _ _ _ _ Hs Hg) as Hp.
  rewrite (drop_S _ _ _ Hp), filter_cons in Hcount.
  unfold Reference.second_pass_step, second_pass_invariant.
  replace (i + 1) with (S i) by lia.
  destruct (decide (i ∈ Reference.settled st)) as [Hin|Hnin].
  - split; [done|]. split; [done|].
    apply Hsettled in Hin as (p & Hpi & Hex). rewrite Hp in Hpi. injection Hpi as <-.
    by rewrite decide_False in Hcount by tauto.
  - rewrite Hg. rewrite decide_True in Hcount.
    2:{ intros Hex. apply Hnin, Hsettled. eauto. }
    rewrite fmap_cons in Hcount. simpl in Hcount.
    unfold colors_of in *. rewrite list_to_set_disj_cons in Hcount.
    destruct (decide (g ∈ Reference.remaining st)) as [Hg_in|Hg_nin]; simpl.
    + split; [done|]. split; [done|].
      rewrite (remove_one_perm g _ Hg_in), list_to_set_disj_cons in Hcount.
      rewrite <- Hcount.
      rewrite shared_cons_both, gmultiset_size_disj_union, gmultiset_size_singleton.
      lia.
    + split; [done|]. split; [done|].
      rewrite <- Hcount, shared_cons_absent; [done|].
      by rewrite elem_of_list_to_set_disj.
Qed.

Lemma second_pass_sound :
  second_pass_invariant secret guess (length secret)
    (Reference.second_pass (length secret) guess
       (Reference.first_pass (length secret) secret guess)).
Proof.
  unfold Reference.second_pass. apply foldl_seq_invariant.
  - apply second_pass_invariant_initial, first_pass_sound.
  - intros i st Hi. by apply second_pass_invariant_step.
Qed.

Lemma reference_score_counts :
  Reference.score (length secret) secret guess
  = (exact_count secret guess, color_count secret guess).
Proof.
  unfold Reference.score. destruct second_pass_sound as (Hexact & _ & Hcount).
  rewrite drop_ge in Hcount by (by rewrite positions_length).
  rewrite filter_nil in Hcount. simpl in Hcount.
  unfold colors_of in Hcount. rewrite list_to_set_disj_nil in Hcount.
  rewrite shared_empty, gmultiset_size_empty in Hcount.
  f_equal; [done | lia].
Qed.

End reference_passes.

(** ** The evaluation follows the reference algorithm *)

Lemma first_pass_succ (i : nat) (secret guess : list color) :
  Reference.first_pass (i + 1) secret guess
  = Reference.first_pass_step secret guess (Reference.first_pass i secret guess) i.
Proof.
  unfold Reference.first_pass. replace (i + 1) with (S i) by lia.
  by rewrite seq_S, foldl_app.
Qed.

Lemma second_pass_succ (i : nat) (guess : list color) (st : Reference.score_state) :
  Reference.second_pass (i + 1) guess st
  = Reference.second_pass_step guess (Reference.second_pass i guess st) i.
Proof.
  unfold Reference.second_pass. replace (i + 1) with (S i) by lia.
  by rewrite seq_S, foldl_app.
Qed.

Section removal.
Variables (h : gmap loc (list color)) (rl : loc).

Lemma try_remove_present (x : color) (on_removed : eval_state → result eval_state)
    (st : eval_state) (remaining : list color) :
  store st = <[rl := remaining]> h →
  x ∈ remaining →
  try_remove rl x on_removed st
  = on_removed (set_store (<[rl := Reference.remove_one x remaining]> h) st).
Proof.
  intros Hstore Hin. unfold try_remove. rewrite Hstore, lookup_insert_eq. simpl.
  destruct (index_remove_one x remaining Hin) as (k & -> & ->).
  by rewrite insert_insert_eq.
Qed.

End removal.

Section first_pass_simulation.
Variables (h : gmap loc (list color)) (sc rl : loc) (columns : nat).
Variables secret guess : list color.
Hypothesis secret_stored : h !! sc = Some secret.
Hypothesis distinct : rl ≠ sc.
Hypothesis secret_length : length secret = columns.
Hypothesis guess_length : length guess = columns.

Lemma first_pass_body_simulates (i : nat) (st : eval_state) (rs : Reference.score_state) :
  i < columns →
  simulates h rl columns st rs →
  first_pass_invariant secret guess i rs →
  ∃ st', first_pass_body sc rl guess i st = Ok st' ∧
         simulates h rl columns st' (Reference.first_pass_step secret guess rs i).
Proof.
  intros Hi (Hstore & Hexact & Hcolor & Hlen & Htracker & Hprinted) (_ & _ & _ & Hrem).
  destruct (lookup_lt_is_Some_2 secret i) as [s Hs]; [lia|].
  destruct (lookup_lt_is_Some_2 guess i) as [g Hg]; [lia|].
  unfold first_pass_body, Reference.first_pass_step. rewrite Hg, Hs. simpl.
  rewrite Hstore, lookup_insert_ne, secret_stored by done. simpl. rewrite Hs. simpl.
  destruct (decide (g = s)) as [->|Hne]; [|by exists st].
  assert (s ∈ Reference.remaining rs) as Hin.
  { rewrite Hrem, (drop_S _ _ _ Hs), elem_of_app, elem_of_cons. auto. }
  rewrite (try_remove_present h rl _ _ _ (Reference.remaining rs)) by done.
  unfold mark_correct. simpl. rewrite decide_True by lia.
  eexists. split; [done|]. unfold simulates. simpl.
  split_and!; try done.
  - lia.
  - by rewrite length_insert.
  - intros j. rewrite elem_of_union, elem_of_singleton, <- Htracker.
    destruct (decide (j = i)) as [->|Hji].
    + rewrite list_lookup_insert_eq by lia. tauto.
    + rewrite list_lookup_insert_ne by done. tauto.
Qed.

Lemma first_pass_simulates :
  ∃ st, for_range (first_pass_body sc rl guess) (seq 0 columns)
          (mkEval (<[rl := secret]> h) 0 0 (replicate columns false) [])
        = Ok st ∧
        simulates h rl columns st (Reference.first_pass columns secret guess).
Proof.
  destruct (for_range_invariant
    (λ i st, simulates h rl columns st (Reference.first_pass i secret guess) ∧
             first_pass_invariant secret guess i (Reference.first_pass i secret guess))
    (first_pass_body sc rl guess) columns
    (mkEval (<[rl := secret]> h) 0 0 (replicate columns false) []))
    as (st & Hrun & Hsim & _).
  - split; [|apply first_pass_invariant_initial; lia].
    unfold simulates, Reference.first_pass. simpl. split_and!; try done.
    + apply length_replicate.
    + intros j. split.
      * intros [[=] _]%lookup_replicate.
      * intros []%not_elem_of_empty.
  - intros i st Hi [Hsim Hinv].
    destruct (first_pass_body_simulates i st _ Hi Hsim Hinv) as (st' & Hbody & Hsim').
    exists st'. rewrite first_pass_succ. split_and!; try done.
    apply first_pass_invariant_step; [lia | lia | done].
  - by exists st.
Qed.

End first_pass_simulation.

Section second_pass_simulation.
Variables (h : gmap loc (list color)) (rl : loc) (columns : nat).
Variable guess : list color.
Hypothesis guess_length : length guess = columns.

Lemma second_pass_body_simulates (i : nat) (st : eval_state) (rs : Reference.score_state) :
  i < columns →
  simulates h rl columns st rs →
  ∃ st', second_pass_body rl guess i st = Ok st' ∧
         simulates h rl columns st' (Reference.second_pass_step guess rs i).
Proof.
  intros Hi (Hstore & Hexact & Hcolor & Hlen & Htracker & Hprinted).
  destruct (lookup_lt_is_Some_2 (correct_color_tracker st) i) as [t Ht]; [lia|].
  destruct (lookup_lt_is_Some_2 guess i) as [g Hg]; [lia|].
  unfold second_pass_body, Reference.second_pass_step. rewrite Ht. simpl.
  destruct t.
  { rewrite decide_True by (by apply Htracker). by exists st. }
  rewrite decide_False by (rewrite <- Htracker, Ht; congruence).
  rewrite Hg. simpl. rewrite Hstore, lookup_insert_eq. simpl.
  unfold Py.contains.
  destruct (decide (g ∈ Reference.remaining rs)) as [Hin|Hnin].
  - rewrite bool_decide_eq_true_2 by done.
    rewrite (try_remove_present h rl _ _ _ (Reference.remaining rs)) by done.
    eexists. split; [done|]. unfold simulates. simpl. split_and!; try done. lia.
  - rewrite bool_decide_eq_false_2 by done. by exists st.
Qed.

Lemma second_pass_simulates (st : eval_state) (rs : Reference.score_state) :
  simulates h rl columns st rs →
  ∃ st', for_range (second_pass_body rl guess) (seq 0 columns) st = Ok st' ∧
         simulates h rl columns st' (Reference.second_pass columns guess rs).
Proof.
  intros Hsim.
  apply (for_range_invariant
    (λ i st, simulates h rl columns st (Reference.second_pass i guess rs))); [done|].
  intros i st1 Hi Hsim1. rewrite second_pass_succ.
  by apply second_pass_body_simulates.
Qed.

End second_pass_simulation.

Lemma fresh_location (h : gmap loc (list color)) (sc : loc) (code : list color) :
  h !! sc = Some code → fresh (dom h) ≠ sc.
Proof.
  intros Hsc Heq. apply (is_fresh (dom h)). rewrite Heq. apply elem_of_dom. eauto.
Qed.

Lemma delete_fresh (h : gmap loc (list color)) (l : list color) :
  delete (fresh (dom h)) (<[fresh (dom h) := l]> h) = h.
Proof.
  rewrite delete_insert_eq. apply delete_id, not_elem_of_dom, is_fresh.
Qed.

(** The evaluation returns, in a state that agrees with the final state of
    the reference algorithm. *)
Lemma evaluate_simulates (columns : nat) (h : gmap loc (list color)) (sc : loc)
    (secret guess : list color) :
  h !! sc = Some secret →
  length secret = columns →
  length guess = columns →
  ∃ st, evaluate columns h sc guess = Ok (fresh (dom h), st) ∧
        simulates h (fresh (dom h)) columns st
          (Reference.second_pass columns guess (Reference.first_pass columns secret guess)).
Proof.
  intros Hsc Hs Hg. unfold evaluate. rewrite Hsc. simpl. rewrite Hg.
  pose proof (fresh_location h sc secret Hsc) as Hne.
  destruct (first_pass_simulates h sc _ columns secret guess Hsc Hne Hs Hg)
    as (st1 & -> & Hsim1). simpl.
  destruct (second_pass_simulates h _ columns guess Hg st1 _ Hsim1) as (st2 & -> & Hsim2).
  simpl. by exists st2.
Qed.

(** What the evaluation leaves behind, in terms of the counts by position. *)
Lemma evaluate_counts (columns : nat) (h : gmap loc (list color)) (sc : loc)
    (secret guess : list color) :
  h !! sc = Some secret →
  length secret = columns →
  length guess = columns →
  ∃ st, evaluate columns h sc guess = Ok (fresh (dom h), st) ∧
        (correct_color_count st, correct_location_color_count st)
          = Reference.score columns secret guess ∧
        correct_color_count st = exact_count secret guess ∧
        correct_location_color_count st = color_count secret guess ∧
        printed st = [] ∧
        delete (fresh (dom h)) (store st) = h.
Proof.
  intros Hsc Hs Hg.
  destruct (evaluate_simulates columns h sc secret guess Hsc Hs Hg)
    as (st & Hrun & Hstore & Hexact & Hcolor & _ & _ & Hprinted).
  assert (length secret = length guess) as Hlen by lia.
  pose proof (reference_score_counts secret guess Hlen) as Hscore.
  rewrite Hs in Hscore. unfold Reference.score in *.
  injection Hscore as Hscore1 Hscore2.
  exists st. split_and!; try done; try congruence.
  rewrite Hstore. apply delete_fresh.
Qed.

(** ** Counts by position and shared colors *)

Lemma size_colors_of (l : list color) : size (colors_of l) = length l.
Proof.
  unfold colors_of. induction l as [|x l IH].
  - by rewrite list_to_set_disj_nil, gmultiset_size_empty.
  - rewrite list_to_set_disj_cons, gmultiset_size_disj_union, gmultiset_size_singleton.
    simpl. by rewrite IH.
Qed.

Lemma shared_disj_union (E A B : gmultiset color) :
  (E ⊎ A) ∩ (E ⊎ B) = E ⊎ (A ∩ B).
Proof.
  apply gmultiset_eq. intros y.
  rewrite multiplicity_intersection, !multiplicity_disj_union, multiplicity_intersection.
  lia.
Qed.

Lemma shared_size_le (A B : gmultiset color) : size (A ∩ B) ≤ size B.
Proof.
  apply gmultiset_subseteq_size. intros y. rewrite multiplicity_intersection. lia.
Qed.

Lemma exact_same_colors (l : list (color * color)) :
  (filter exact l).*1 = (filter exact l).*2.
Proof.
  induction l as [|[s g] l IH]; [done|].
  rewrite filter_cons. destruct (decide (exact (s, g))) as [Hex|]; [|done].
  rewrite !fmap_cons, IH. unfold exact in Hex. simpl in Hex. simpl. by rewrite Hex.
Qed.

Lemma positions_split (l : list (color * color)) :
  l ≡ₚ filter exact l ++ filter (λ p, ¬ exact p) l.
Proof. symmetry. apply filter_app_complement. Qed.

Section counts.
Variables secret guess : list color.
Hypothesis same_length : length secret = length guess.

Lemma secret_colors_split :
  colors_of secret
  = colors_of (exact_positions secret guess).*1 ⊎ colors_of (other_positions secret guess).*1.
Proof.
  unfold colors_of, exact_positions, other_positions.
  rewrite <- list_to_set_disj_app, <- fmap_app, <- positions_split.
  by rewrite positions_fst.
Qed.

Lemma guess_colors_split :
  colors_of guess
  = colors_of (exact_positions secret guess).*1 ⊎ colors_of (other_positions secret guess).*2.
Proof.
  unfold colors_of, exact_positions, other_positions.
  rewrite exact_same_colors, <- list_to_set_disj_app, <- fmap_app, <- positions_split.
  by rewrite positions_snd.
Qed.

(** The two counts add up to the number of colors the guess and the secret
    code share, with multiplicity. *)
Lemma counts_shared :
  exact_count secret guess + color_count secret guess
  = size (colors_of guess ∩ colors_of secret).
Proof.
  rewrite secret_colors_split, guess_colors_split, shared_disj_union.
  rewrite gmultiset_size_disj_union, size_colors_of, length_fmap. done.
Qed.

Lemma counts_bounded :
  exact_count secret guess + color_count secret guess ≤ length secret.
Proof. rewrite counts_shared, <- (size_colors_of secret). apply shared_size_le. Qed.

End counts.

(** ** Rearranging positions *)

Lemma permute_seq {A} (l : list A) : permute (seq 0 (length l)) l = l.
Proof.
  unfold permute. induction l as [|x l IH] using rev_ind; [done|].
  rewrite length_app. simpl. rewrite Nat.add_1_r, seq_S, omap_app. simpl.
  rewrite lookup_app_r, Nat.sub_diag by lia. simpl. f_equal.
  rewrite <- IH at 2. apply list_omap_ext.
  apply Forall2_same_length_lookup_2; [done|].
  intros i x1 x2 Hx1 Hx2. rewrite Hx1 in Hx2. injection Hx2 as <-.
  apply lookup_seq in Hx1 as [-> Hi]. simpl. by rewrite lookup_app_l.
Qed.

Lemma permute_perm {A} (p : list nat) (l : list A) :
  p ≡ₚ seq 0 (length l) → permute p l ≡ₚ l.
Proof. intros Hp. rewrite <- (permute_seq l) at 2. unfold permute. by rewrite Hp. Qed.

Lemma permute_positions (p : list nat) (secret guess : list color) :
  length secret = length guess →
  positions (permute p secret) (permute p guess) = permute p (positions secret guess).
Proof.
  intros Hlen. unfold permute, positions. induction p as [|i p IH]; [done|]. simpl.
  rewrite lookup_zip_with.
  destruct (secret !! i) as [s|] eqn:Hs; simpl.
  - destruct (lookup_lt_is_Some_2 guess i) as [g Hg].
    { apply lookup_lt_Some in Hs. lia. }
    rewrite Hg. simpl. f_equal. apply IH.
  - rewrite (lookup_ge_None_2 guess i); [apply IH|]. apply lookup_ge_None in Hs. lia.
Qed.

Lemma positions_permuted (p : list nat) (secret guess : list color) :
  length secret = length guess →
  p ≡ₚ seq 0 (length secret) →
  positions (permute p secret) (permute p guess) ≡ₚ positions secret guess.
Proof.
  intros Hlen Hp. rewrite permute_positions by done.
  apply permute_perm. by rewrite positions_length.
Qed.

Lemma counts_permuted (p : list nat) (secret guess : list color) :
  length secret = length guess →
  p ≡ₚ seq 0 (length secret) →
  exact_count (permute p secret) (permute p guess) = exact_count secret guess ∧
  color_count (permute p secret) (permute p guess) = color_count secret guess.
Proof.
  intros Hlen Hp. pose proof (positions_permuted p secret guess Hlen Hp) as Hpos.
  unfold exact_count, color_count, exact_positions, other_positions, colors_of.
  by rewrite Hpos.
Qed.

Lemma permute_length {A} (p : list nat) (l : list A) :
  p ≡ₚ seq 0 (length l) → length (permute p l) = length l.
Proof. intros Hp. by rewrite (permute_perm p l Hp). Qed.

(** ** Rows, slices and pegs *)

Lemma slice_bound_in_range (len : nat) (n : nat) :
  n ≤ len → Py.slice_bound len (Z.of_nat n) = n.
Proof.
  intros Hn. unfold Py.slice_bound.
  destruct (Z.ltb_spec (Z.of_nat n) 0); [lia|].
  rewrite Z.min_l by lia. apply Nat2Z.id.
Qed.

Lemma start_index_nat (r : nat) :
  r < ROWS → start_index r = Z.of_nat ((ROWS - 1 - r) * COLUMNS).
Proof. intros Hr. unfold start_index, actual_row, ROWS, COLUMNS in *. lia. Qed.

Lemma end_index_nat (r : nat) :
  r < ROWS → end_index r = Z.of_nat ((ROWS - 1 - r) * COLUMNS + COLUMNS).
Proof. intros Hr. unfold end_index, actual_row, ROWS, COLUMNS in *. lia. Qed.

Lemma row_slice {A} (l : list A) (r : nat) :
  length l = ROWS * COLUMNS → r < ROWS →
  Py.slice l (start_index r) (end_index r)
  = take COLUMNS (drop ((ROWS - 1 - r) * COLUMNS) l).
Proof.
  intros Hl Hr. unfold Py.slice.
  rewrite start_index_nat, end_index_nat by done.
  rewrite !slice_bound_in_range by (unfold ROWS, COLUMNS in *; lia).
  f_equal. unfold COLUMNS. lia.
Qed.

Lemma length_row_slice {A} (l : list A) (r : nat) :
  length l = ROWS * COLUMNS → r < ROWS →
  length (Py.slice l (start_index r) (end_index r)) = COLUMNS.
Proof.
  intros Hl Hr. rewrite row_slice by done.
  rewrite length_take, length_drop. unfold ROWS, COLUMNS in *. lia.
Qed.

Lemma length_configure_slice {A} (f : A → A) (l : list A) (a b : Z) :
  length (Py.configure_slice f l a b) = length l.
Proof.
  unfold Py.configure_slice.
  rewrite !length_app, length_fmap, !length_take, !length_drop. lia.
Qed.

Lemma actual_row_position (r : nat) :
  r < ROWS → Py.position ROWS (actual_row r) = Some (ROWS - 1 - r).
Proof.
  intros Hr. unfold Py.position, actual_row, ROWS in *.
  destruct (Z.leb_spec 0 (Z.of_nat 15 - 1 - Z.of_nat r)); [|lia].
  destruct (Z.ltb_spec (Z.of_nat 15 - 1 - Z.of_nat r) (Z.of_nat 15)); [|lia].
  simpl. f_equal. lia.
Qed.

Lemma contains_spec (c : color) (l : list color) : Py.contains c l = true ↔ c ∈ l.
Proof. unfold Py.contains. apply bool_decide_eq_true. Qed.

Lemma valid_guess_check (guess : list color) :
  forallb (λ c, Py.contains c COLORS) guess = true ↔ valid_guess guess.
Proof.
  unfold valid_guess. induction guess as [|c guess IH].
  - split; [constructor | done].
  - cbn [forallb]. rewrite andb_true_iff, contains_spec, IH. split.
    + intros [Hc Hg]. by constructor.
    + intros Hf. by inversion Hf.
Qed.

Lemma color_pegs_in_range (bg : string) (count : nat) (feedback_labels : list string)
    (current_label : nat) :
  current_label + count ≤ length feedback_labels →
  color_pegs bg count feedback_labels current_label
  = Ok (take current_label feedback_labels ++ replicate count bg ++
          drop (current_label + count) feedback_labels,
        current_label + count).
Proof.
  revert feedback_labels current_label.
  induction count as [|count IH]; intros labels cur Hle; simpl.
  - by rewrite Nat.add_0_r, take_drop.
  - rewrite decide_True by lia. rewrite IH by (rewrite length_insert; lia).
    replace (cur + 1 + count) with (cur + S count) by lia.
    replace (cur + 1) with (S cur) by lia.
    rewrite (take_S_r _ _ bg) by (apply list_lookup_insert_eq; lia).
    rewrite take_insert_ge by done. rewrite drop_insert_lt by lia.
    by rewrite <- app_assoc.
Qed.

Lemma color_pegs_both (e c : nat) (feedback_labels : list string) :
  e + c ≤ length feedback_labels →
  ('(feedback_labels, current_label) ← color_pegs "red" e feedback_labels 0;
   color_pegs "white" c feedback_labels current_label)
  = Ok (scored_pegs e c feedback_labels, e + c).
Proof.
  intros Hle. rewrite color_pegs_in_range by lia. simpl.
  rewrite color_pegs_in_range by (rewrite length_app, length_replicate, length_drop; lia).
  unfold scored_pegs. do 2 f_equal.
  rewrite take_app_length' by (by rewrite length_replicate).
  rewrite drop_app, length_replicate, drop_ge by (rewrite length_replicate; lia).
  simpl. rewrite drop_drop. do 3 f_equal. lia.
Qed.

Lemma length_scored_pegs (e c : nat) (feedback_labels : list string) :
  e + c ≤ length feedback_labels →
  length (scored_pegs e c feedback_labels) = length feedback_labels.
Proof.
  intros Hle. unfold scored_pegs.
  rewrite !length_app, !length_replicate, length_drop. lia.
Qed.

(** ** The handlers on a game being played *)

Lemma bind_pair_eta {A B} (m : result (A * list B)) :
  ('(a, b) ← m; Ok (a, [] ++ b)) = m.
Proof. by destruct m as [[a b]|e]. Qed.

Lemma four_colors (code : list color) :
  length code = COLUMNS → ∃ c0 c1 c2 c3, code = [c0; c1; c2; c3].
Proof.
  intros Hlen. destruct code as [|c0 [|c1 [|c2 [|c3 [|c4 code]]]]]; try done.
  by exists c0, c1, c2, c3.
Qed.

Section handlers.
Context {T : Type} `{!Clock T}.
Implicit Types (g : MastermindGame T).

Lemma submitted_colors_length g (r : nat) :
  board_ok g → r < ROWS → length (submitted_colors_of g r) = COLUMNS.
Proof.
  intros (Hbuttons & _ & _) Hr. unfold submitted_colors_of.
  rewrite length_fmap. by apply length_row_slice.
Qed.

Lemma deactivate_current_row_started g (r : nat) :
  current_row g = Some r →
  deactivate_current_row g
  = Ok (set_button_list
          (Py.configure_slice (λ b, mkButton (background b) DISABLED)
             (button_list g) (start_index r) (end_index r)) g).
Proof. intros Hr. unfold deactivate_current_row. by rewrite Hr. Qed.

Lemma increment_current_row_started g (r : nat) :
  current_row g = Some r →
  ∃ buttons,
    length buttons = length (button_list g) ∧
    increment_current_row g
    = Ok (set_button_list buttons (set_current_row (Some (r + 1)) g)).
Proof.
  intros Hr. unfold increment_current_row.
  rewrite Hr, (deactivate_current_row_started g r Hr). simpl. rewrite Hr.
  unfold activate_current_row. simpl. eexists. split; [|done].
  by rewrite !length_configure_slice.
Qed.

Lemma increment_current_row_fresh g :
  current_row g = None →
  ∃ buttons,
    length buttons = length (button_list g) ∧
    increment_current_row g
    = Ok (set_button_list buttons (set_current_row (Some 0) g)).
Proof.
  intros Hr. unfold increment_current_row. rewrite Hr. simpl. rewrite Hr.
  unfold activate_current_row. simpl. eexists. split; [|done].
  by rewrite length_configure_slice.
Qed.

Lemma give_feedback_in_range g (r e c : nat) (old : list string) :
  length (feedback_label_list g) = ROWS →
  r < ROWS →
  feedback_label_list g !! (ROWS - 1 - r) = Some old →
  e + c ≤ length old →
  give_feedback r e c g
  = Ok (set_feedback_label_list
          (<[ROWS - 1 - r := scored_pegs e c old]> (feedback_label_list g))
          (set_instructional_label (Feedback c e) g)).
Proof.
  intros Hlen Hr Hold Hle. unfold give_feedback. simpl.
  rewrite Hlen, actual_row_position by done. simpl. simpl in Hold. rewrite Hold. simpl.
  rewrite color_pegs_in_range by lia. simpl.
  pose proof (color_pegs_both e c old Hle) as Hboth.
  rewrite color_pegs_in_range in Hboth by lia. simpl in Hboth.
  by rewrite Hboth.
Qed.

Lemma end_turn_won g (now t0 : T) (answer : bool) (r : nat) (sc : loc) :
  current_row g = Some r →
  start_time g = Some t0 →
  end_turn now answer r sc true g
  = Ok (set_submit_button DISABLED
          (set_button_list
             (Py.configure_slice (λ b, mkButton (background b) DISABLED)
                (button_list g) (start_index r) (end_index r)) g),
        ShowInfoWin (r + 1) (time_int (time_sub now t0)) :: offer_play_again answer).
Proof.
  intros Hr Ht. unfold end_turn.
  rewrite (deactivate_current_row_started g r Hr). simpl. by rewrite Ht.
Qed.

Lemma end_turn_lost g (now : T) (answer : bool) (r : nat) (sc : loc) (c0 c1 c2 c3 : color) :
  current_row g = Some r →
  r = ROWS - 1 →
  lists g !! sc = Some [c0; c1; c2; c3] →
  end_turn now answer r sc false g
  = Ok (set_submit_button DISABLED
          (set_button_list
             (Py.configure_slice (λ b, mkButton (background b) DISABLED)
                (button_list g) (start_index r) (end_index r)) g),
        ShowWarningLose c0 c1 c2 c3 :: offer_play_again answer).
Proof.
  intros Hr Hlast Hcode. unfold end_turn. rewrite decide_True by done.
  rewrite (deactivate_current_row_started g r Hr). simpl. by rewrite Hcode.
Qed.

Lemma end_turn_next g (now : T) (answer : bool) (r : nat) (sc : loc) :
  current_row g = Some r →
  r ≠ ROWS - 1 →
  ∃ buttons,
    length buttons = length (button_list g) ∧
    end_turn now answer r sc false g
    = Ok (set_button_list buttons (set_current_row (Some (r + 1)) g), []).
Proof.
  intros Hr Hlast. unfold end_turn. rewrite decide_False by done.
  destruct (increment_current_row_started g r Hr) as (buttons & Hlen & ->).
  by exists buttons.
Qed.

(** A valid submission of a game being played is evaluated, shown on the
    pegs of its row, and ends the turn. *)
Lemma handle_submit_valid g (r : nat) (code : list color) (now t0 : T) (answer : bool) :
  playing g r code t0 →
  valid_guess (submitted_colors_of g r) →
  let e := exact_count code (submitted_colors_of g r) in
  let c := color_count code (submitted_colors_of g r) in
  ∃ sc old,
    secret_code g = Some sc ∧
    feedback_label_list g !! (ROWS - 1 - r) = Some old ∧
    length old = 4 ∧
    (e, c) = Reference.score COLUMNS code (submitted_colors_of g r) ∧
    e + c ≤ 4 ∧
    handle_submit now answer g
    = end_turn now answer r sc (bool_decide (e = 4))
        (set_feedback_label_list
           (<[ROWS - 1 - r := scored_pegs e c old]> (feedback_label_list g))
           (set_instructional_label (Feedback c e) g)).
Proof.
  intros (Hboard & Hrow & Hr & (sc & Hsc & Hcode) & Hlen & Ht0) Hvalid e c.
  pose proof (submitted_colors_length g r Hboard Hr) as Hguess.
  destruct Hboard as (Hbuttons & Hrows & Hlabels).
  destruct (lookup_lt_is_Some_2 (feedback_label_list g) (ROWS - 1 - r)) as [old Hold].
  { rewrite Hrows. unfold ROWS. lia. }
  assert (length old = 4) as Hold4.
  { by apply (Forall_lookup_1 _ _ _ _ Hlabels Hold). }
  destruct (evaluate_counts COLUMNS (lists g) sc code _ Hcode Hlen Hguess)
    as (st & Hrun & Hscore & Hexact & Hcolor & Hprinted & Hstore).
  assert (e + c ≤ 4) as Hbound.
  { pose proof (counts_bounded code (submitted_colors_of g r)) as Hb.
    rewrite Hlen in Hb. apply Hb. by rewrite Hguess. }
  exists sc, old. split_and!; try done.
  { unfold e, c. by rewrite <- Hexact, <- Hcolor. }
  unfold handle_submit. rewrite Hrow. simpl.
  rewrite (proj2 (valid_guess_check _) Hvalid), Hsc. simpl.
  rewrite Hrun. simpl. rewrite Hstore, Hexact, Hcolor, Hprinted.
  assert (set_lists (lists g) g = g) as -> by (by destruct g).
  rewrite (give_feedback_in_range g r _ _ old) by (done || lia). simpl.
  apply bind_pair_eta.
Qed.

End handlers.

(** ** The score *)

(** C1: for every secret code and every submitted guess of length [COLUMNS]
    (more generally, of the length [columns] of the tracker), the evaluation
    of [handle_submit] returns, and the two counters it computes are the score
    of the two-pass reference algorithm: exact matches settled and removed by
    value in a first pass in position order, color matches counted and removed
    by value in a second pass over the positions left. *)
Theorem evaluate_agrees_with_reference (columns : nat) (h : gmap loc (list color))
    (sc : loc) (secret guess : list color) :
  h !! sc = Some secret →
  length secret = columns →
  length guess = columns →
  ∃ rl st, evaluate columns h sc guess = Ok (rl, st) ∧
           (correct_color_count st, correct_location_color_count st)
             = Reference.score columns secret guess.
Proof.
  intros Hsc Hs Hg.
  destruct (evaluate_counts columns h sc secret guess Hsc Hs Hg) as (st & Hrun & Hscore & _).
  by exists (fresh (dom h)), st.
Qed.

Lemma evaluate_agrees_with_reference_witness :
  Sample.store_repeated !! 0 = Some Sample.repeated ∧
  length Sample.repeated = COLUMNS ∧
  length ["red"; "blue"; "red"; "yellow"] = COLUMNS ∧
  ∃ rl st, evaluate COLUMNS Sample.store_repeated 0 ["red"; "blue"; "red"; "yellow"]
             = Ok (rl, st) ∧
           (correct_color_count st, correct_location_color_count st)
             = Reference.score COLUMNS Sample.repeated ["red"; "blue"; "red"; "yellow"].
Proof.
  split; [reflexivity|]. split; [reflexivity|]. split; [reflexivity|].
  apply (evaluate_agrees_with_reference COLUMNS Sample.store_repeated 0 Sample.repeated);
    reflexivity.
Defined.

(** C3: for every secret code and guess of the same length, the two counters
    add up to at most the length of the secret code; they add up to the
    number of colors the guess shares with the secret code, each occurrence
    counted once. *)
Theorem score_total_bounded (columns : nat) (h : gmap loc (list color))
    (sc : loc) (secret guess : list color) :
  h !! sc = Some secret →
  length secret = columns →
  length guess = columns →
  ∃ rl st, evaluate columns h sc guess = Ok (rl, st) ∧
           correct_color_count st + correct_location_color_count st ≤ length secret ∧
           correct_color_count st + correct_location_color_count st
             = size (colors_of guess ∩ colors_of secret).
Proof.
  intros Hsc Hs Hg.
  destruct (evaluate_counts columns h sc secret guess Hsc Hs Hg)
    as (st & Hrun & _ & Hexact & Hcolor & _).
  exists (fresh (dom h)), st. split; [done|]. rewrite Hexact, Hcolor.
  split; [apply counts_bounded | apply counts_shared]; lia.
Qed.

Lemma score_total_bounded_witness :
  Sample.store_repeated !! 0 = Some Sample.repeated ∧
  length Sample.repeated = 4 ∧
  length ["red"; "blue"; "red"; "yellow"] = 4 ∧
  ∃ rl st, evaluate 4 Sample.store_repeated 0 ["red"; "blue"; "red"; "yellow"] = Ok (rl, st) ∧
           correct_color_count st + correct_location_color_count st ≤ length Sample.repeated ∧
           correct_color_count st + correct_location_color_count st
             = size (colors_of ["red"; "blue"; "red"; "yellow"] ∩ colors_of Sample.repeated).
Proof.
  split; [reflexivity|]. split; [reflexivity|]. split; [reflexivity|].
  apply (score_total_bounded 4 Sample.store_repeated 0 Sample.repeated); reflexivity.
Defined.

(** C4: rearranging the positions of the secret code and of the guess in the
    same way changes neither counter. *)
Theorem score_invariant_under_permutation (columns : nat) (h h' : gmap loc (list color))
    (sc sc' : loc) (secret guess : list color) (p : list nat) :
  h !! sc = Some secret →
  h' !! sc' = Some (permute p secret) →
  length secret = columns →
  length guess = columns →
  p ≡ₚ seq 0 columns →
  ∃ rl st rl' st',
    evaluate columns h sc guess = Ok (rl, st) ∧
    evaluate columns h' sc' (permute p guess) = Ok (rl', st') ∧
    (correct_color_count st', correct_location_color_count st')
      = (correct_color_count st, correct_location_color_count st).
Proof.
  intros Hsc Hsc' Hs Hg Hp.
  destruct (evaluate_counts columns h sc secret guess Hsc Hs Hg)
    as (st & Hrun & _ & Hexact & Hcolor & _).
  destruct (evaluate_counts columns h' sc' (permute p secret) (permute p guess) Hsc')
    as (st' & Hrun' & _ & Hexact' & Hcolor' & _).
  { rewrite permute_length; [done | by rewrite Hs]. }
  { rewrite permute_length; [done | by rewrite Hg]. }
  exists (fresh (dom h)), st, (fresh (dom h')), st'. split; [done|]. split; [done|].
  rewrite Hexact, Hcolor, Hexact', Hcolor'.
  destruct (counts_permuted p secret guess) as [-> ->]; [lia | by rewrite Hs | done].
Qed.

Lemma score_invariant_under_permutation_witness :
  [2; 0; 3; 1] ≡ₚ seq 0 4 ∧
  permute [2; 0; 3; 1] Sample.repeated = ["blue"; "red"; "green"; "red"] ∧
  permute [2; 0; 3; 1] ["red"; "blue"; "red"; "yellow"] = ["red"; "red"; "yellow"; "blue"] ∧
  ∃ rl st rl' st',
    evaluate 4 Sample.store_repeated 0 ["red"; "blue"; "red"; "yellow"] = Ok (rl, st) ∧
    evaluate 4 {[ 5 := permute [2; 0; 3; 1] Sample.repeated ]} 5
      (permute [2; 0; 3; 1] ["red"; "blue"; "red"; "yellow"]) = Ok (rl', st') ∧
    (correct_color_count st', correct_location_color_count st')
      = (correct_color_count st, correct_location_color_count st).
Proof.
  assert ([2; 0; 3; 1] ≡ₚ seq 0 4) as Hp.
  { apply (bool_decide_unpack _). vm_compute. exact I. }
  split; [exact Hp|]. split; [reflexivity|]. split; [reflexivity|].
  apply (score_invariant_under_permutation 4 Sample.store_repeated
           {[ 5 := permute [2; 0; 3; 1] Sample.repeated ]} 0 5 Sample.repeated);
    [reflexivity | reflexivity | reflexivity | reflexivity | exact Hp].
Defined.

(** C9: the [except] branches of the evaluation are never taken. In the
    first pass a submitted color equal to the secret color of its position is
    still among the remaining colors, in the second pass the removal follows
    a membership test: the evaluation returns without printing. *)
Theorem removal_never_fails (columns : nat) (h : gmap loc (list color))
    (sc : loc) (secret guess : list color) :
  h !! sc = Some secret →
  length secret = columns →
  length guess = columns →
  (∃ rl st, evaluate columns h sc guess = Ok (rl, st) ∧ printed st = []) ∧
  (∀ (x : color) (remaining_colors : list color),
     Py.contains x remaining_colors = true →
     ∃ k, Py.index x remaining_colors = Some k).
Proof.
  intros Hsc Hs Hg. split.
  - destruct (evaluate_counts columns h sc secret guess Hsc Hs Hg)
      as (st & Hrun & _ & _ & _ & Hprinted & _).
    by exists (fresh (dom h)), st.
  - intros x l Hin%contains_spec.
    destruct (index_remove_one x l Hin) as (k & Hk & _). by exists k.
Qed.

Lemma removal_never_fails_witness :
  Sample.store_repeated !! 0 = Some Sample.repeated ∧
  length Sample.repeated = 4 ∧
  length ["red"; "blue"; "red"; "yellow"] = 4 ∧
  (∃ rl st, evaluate 4 Sample.store_repeated 0 ["red"; "blue"; "red"; "yellow"] = Ok (rl, st) ∧
            printed st = []) ∧
  (∀ (x : color) (remaining_colors : list color),
     Py.contains x remaining_colors = true →
     ∃ k, Py.index x remaining_colors = Some k).
Proof.
  split; [reflexivity|]. split; [reflexivity|]. split; [reflexivity|].
  apply (removal_never_fails 4 Sample.store_repeated 0 Sample.repeated); reflexivity.
Defined.

(** ** A full score *)

Lemma filter_length_all {A} (P : A → Prop) `{!∀ x, Decision (P x)} (l : list A) :
  length (filter P l) = length l ↔ Forall P l.
Proof.
  induction l as [|x l IH]; [by split|].
  rewrite filter_cons. destruct (decide (P x)) as [HP|HP]; simpl.
  - split.
    + intros Hlen. constructor; [done|]. apply IH. lia.
    + intros Hall. inversion Hall as [|? ? _ Hl]; subst. f_equal. by apply IH.
  - pose proof (length_filter P l) as Hle. split; [lia|].
    intros Hall. by inversion Hall.
Qed.

Lemma positions_all_exact (secret guess : list color) :
  length secret = length guess →
  Forall exact (positions secret guess) ↔ guess = secret.
Proof.
  revert guess. induction secret as [|s secret IH]; intros [|g guess] Hlen;
    try done.
  unfold positions in *. simpl in *. split.
  - intros Hall. inversion Hall as [|? ? Hex Hrest]; subst.
    unfold exact in Hex. simpl in Hex. subst. f_equal. apply IH; [lia | done].
  - intros [= -> ->]. constructor; [reflexivity|]. apply IH; [lia | done].
Qed.

Lemma exact_count_full (secret guess : list color) :
  length secret = length guess →
  exact_count secret guess = length secret ↔ guess = secret.
Proof.
  intros Hlen. unfold exact_count, exact_positions.
  rewrite <- (positions_length secret guess Hlen).
  rewrite filter_length_all. by apply positions_all_exact.
Qed.

(** For a secret code and a guess of the same length, the evaluation counts
    every position as an exact match if and only if the guess is the secret
    code, position by position. *)
Theorem all_exact_iff_equal (columns : nat) (h : gmap loc (list color))
    (sc : loc) (secret guess : list color) :
  h !! sc = Some secret →
  length secret = columns →
  length guess = columns →
  ∃ rl st, evaluate columns h sc guess = Ok (rl, st) ∧
           (correct_color_count st = columns ↔ guess = secret).
Proof.
  intros Hsc Hs Hg.
  destruct (evaluate_counts columns h sc secret guess Hsc Hs Hg)
    as (st & Hrun & _ & Hexact & _).
  exists (fresh (dom h)), st. split; [done|].
  rewrite Hexact, <- Hs. apply exact_count_full. lia.
Qed.

Lemma all_exact_iff_equal_witness :
  Sample.store_repeated !! 0 = Some Sample.repeated ∧
  ∃ rl st, evaluate 4 Sample.store_repeated 0 Sample.repeated = Ok (rl, st) ∧
           (correct_color_count st = 4 ↔ Sample.repeated = Sample.repeated).
Proof.
  split; [reflexivity|].
  apply (all_exact_iff_equal 4 Sample.store_repeated 0 Sample.repeated); reflexivity.
Defined.

(** ** Turns *)

Lemma new_game_board_ok {T : Type} : board_ok (new_game (T := T)).
Proof.
  unfold board_ok, new_game. simpl_game. rewrite !length_replicate.
  split_and!; try done. apply Forall_replicate, length_replicate.
Qed.


Section turns.
Context {T : Type} `{!Clock T}.
Implicit Types (g : MastermindGame T).

(** The end of a turn returns, and touches nothing but the buttons, the
    current row and the submit button. *)
Lemma end_turn_returns g (now t0 : T) (answer won : bool) (r : nat) (sc : loc)
    (c0 c1 c2 c3 : color) :
  current_row g = Some r →
  start_time g = Some t0 →
  lists g !! sc = Some [c0; c1; c2; c3] →
  ∃ g' shown,
    end_turn now answer r sc won g = Ok (g', shown) ∧
    secret_code g' = secret_code g ∧
    lists g' = lists g ∧
    start_time g' = start_time g ∧
    feedback_label_list g' = feedback_label_list g ∧
    instructional_label g' = instructional_label g ∧
    length (button_list g') = length (button_list g) ∧
    start_button g' = start_button g ∧
    if won then
      shown = ShowInfoWin (r + 1) (time_int (time_sub now t0)) :: offer_play_again answer ∧
      current_row g' = Some r ∧ submit_button g' = DISABLED
    else if decide (r = ROWS - 1) then
      shown = ShowWarningLose c0 c1 c2 c3 :: offer_play_again answer ∧
      current_row g' = Some r ∧ submit_button g' = DISABLED
    else
      shown = [] ∧
      current_row g' = Some (r + 1) ∧ submit_button g' = submit_button g.
Proof.
  intros Hr Ht Hcode. destruct won.
  - rewrite (end_turn_won g now t0 answer r sc Hr Ht).
    eexists _, _. split; [done|]. simpl. split_and!; try done.
    apply length_configure_slice.
  - destruct (decide (r = ROWS - 1)) as [Hlast|Hlast].
    + rewrite (end_turn_lost g now answer r sc c0 c1 c2 c3 Hr Hlast Hcode).
      eexists _, _. split; [done|]. simpl. split_and!; try done.
      apply length_configure_slice.
    + destruct (end_turn_next g now answer r sc Hr Hlast) as (buttons & Hlen & ->).
      eexists _, _. split; [done|]. simpl. by split_and!.
Qed.

(** A valid submission of a game being played: the handler returns; the
    score it shows is the score of the reference algorithm. *)
Lemma handle_submit_returns g (r : nat) (code : list color) (now t0 : T) (answer : bool) :
  playing g r code t0 →
  valid_guess (submitted_colors_of g r) →
  ∃ g' shown e c old c0 c1 c2 c3,
    handle_submit now answer g = Ok (g', shown) ∧
    (e, c) = Reference.score COLUMNS code (submitted_colors_of g r) ∧
    e + c ≤ 4 ∧
    code = [c0; c1; c2; c3] ∧
    feedback_label_list g !! (ROWS - 1 - r) = Some old ∧
    length old = 4 ∧
    secret_code g' = secret_code g ∧
    lists g' = lists g ∧
    start_time g' = start_time g ∧
    feedback_label_list g'
      = <[ROWS - 1 - r := scored_pegs e c old]> (feedback_label_list g) ∧
    instructional_label g' = Feedback c e ∧
    length (button_list g') = length (button_list g) ∧
    start_button g' = start_button g ∧
    if decide (e = COLUMNS) then
      shown = ShowInfoWin (r + 1) (time_int (time_sub now t0)) :: offer_play_again answer ∧
      current_row g' = Some r ∧ submit_button g' = DISABLED
    else if decide (r = ROWS - 1) then
      shown = ShowWarningLose c0 c1 c2 c3 :: offer_play_again answer ∧
      current_row g' = Some r ∧ submit_button g' = DISABLED
    else
      shown = [] ∧
      current_row g' = Some (r + 1) ∧ submit_button g' = submit_button g.
Proof.
  intros Hplaying Hvalid.
  destruct (handle_submit_valid g r code now t0 answer Hplaying Hvalid)
    as (sc & old & Hsc & Hold & Hold4 & Hscore & Hbound & Hrun).
  destruct Hplaying as (Hboard & Hrow & Hr & (sc' & Hsc' & Hcode) & Hlen & Ht0).
  rewrite Hsc in Hsc'. injection Hsc' as <-.
  destruct (four_colors code Hlen) as (c0 & c1 & c2 & c3 & Hfour).
  rewrite Hfour in Hcode.
  set (e := exact_count code (submitted_colors_of g r)) in *.
  set (c := color_count code (submitted_colors_of g r)) in *.
  edestruct (end_turn_returns
    (set_feedback_label_list
       (<[ROWS - 1 - r := scored_pegs e c old]> (feedback_label_list g))
       (set_instructional_label (Feedback c e) g))
    now t0 answer (bool_decide (e = 4)) r sc c0 c1 c2 c3)
    as (g' & shown & Hend & Hsecret & Hlists & Hstart & Hlabels & Htext & Hbuttons &
        Hstartb & Hcase);
    [done..|].
  exists g', shown, e, c, old, c0, c1, c2, c3.
  rewrite Hrun, Hend. simpl in *. split_and!; try done.
  unfold COLUMNS. destruct (decide (e = 4)) as [He|He].
  - by rewrite bool_decide_eq_true_2 in Hcase.
  - by rewrite bool_decide_eq_false_2 in Hcase.
Qed.

Lemma board_ok_scored g g' (r e c : nat) (old : list string) :
  board_ok g →
  feedback_label_list g !! (ROWS - 1 - r) = Some old →
  e + c ≤ 4 →
  feedback_label_list g'
    = <[ROWS - 1 - r := scored_pegs e c old]> (feedback_label_list g) →
  length (button_list g') = length (button_list g) →
  board_ok g'.
Proof.
  intros (Hbuttons & Hrows & Hlabels) Hold Hbound Hfeedback Hlen.
  pose proof (Forall_lookup_1 _ _ _ _ Hlabels Hold) as Hold4. simpl in Hold4.
  unfold board_ok. rewrite Hfeedback, Hlen, length_insert. split_and!; try done.
  apply Forall_insert; [done|]. rewrite length_scored_pegs; [done | lia].
Qed.

(** C2, as the code has it: for every game in progress and every valid
    guess, with [e] exact matches computed, [handle_submit] ends the turn as
    follows, the win first. If [e = COLUMNS] the game is won: the win is
    announced with [current_row + 1] attempts and [int(now - start_time)]
    seconds, the difference of the clock readings truncated by [int], and
    the submit button is disabled (also on the last row). Otherwise, on row
    [ROWS - 1], the game is lost: the secret code is shown and the submit
    button disabled. Otherwise the current row is incremented by one and
    the game stays in progress. *)
Theorem turn_advances g (r : nat) (code : list color) (now t0 : T) (answer : bool) :
  in_progress g r code t0 →
  valid_guess (submitted_colors_of g r) →
  ∃ g' shown e c,
    handle_submit now answer g = Ok (g', shown) ∧
    (e, c) = Reference.score COLUMNS code (submitted_colors_of g r) ∧
    instructional_label g' = Feedback c e ∧
    if decide (e = COLUMNS) then
      shown = ShowInfoWin (r + 1) (time_int (time_sub now t0)) :: offer_play_again answer ∧
      current_row g' = Some r ∧ submit_button g' = DISABLED
    else if decide (r = ROWS - 1) then
      (∃ c0 c1 c2 c3, code = [c0; c1; c2; c3] ∧
         shown = ShowWarningLose c0 c1 c2 c3 :: offer_play_again answer) ∧
      current_row g' = Some r ∧ submit_button g' = DISABLED
    else
      shown = [] ∧ in_progress g' (r + 1) code t0.
Proof.
  intros [Hplaying Hsubmit] Hvalid.
  destruct (handle_submit_returns g r code now t0 answer Hplaying Hvalid)
    as (g' & shown & e & c & old & c0 & c1 & c2 & c3 & Hrun & Hscore & Hbound & Hfour &
        Hold & Hold4 & Hsecret & Hlists & Hstart & Hlabels & Htext & Hbuttons & Hstartb &
        Hcase).
  exists g', shown, e, c. split_and!; try done.
  destruct (decide (e = COLUMNS)) as [He|He]; [done|].
  destruct (decide (r = ROWS - 1)) as [Hlast|Hlast].
  - destruct Hcase as (Hshown & Hrow' & Hsubmit'). split_and!; try done.
    by exists c0, c1, c2, c3.
  - destruct Hcase as (Hshown & Hrow' & Hsubmit'). split; [done|].
    destruct Hplaying as (Hboard & Hrow & Hr & (sc & Hsc & Hcode) & Hlen & Ht0).
    split; [|congruence]. unfold playing. split_and!; try done.
    + by apply (board_ok_scored g g' r e c old).
    + unfold ROWS in *. lia.
    + exists sc. split; congruence.
    + congruence.
Qed.

(** [handle_submit] on a game being played returns with the store of list
    objects as it found it. *)
Lemma secret_code_kept g (r : nat) (code : list color) (now t0 : T) (answer : bool) :
  playing g r code t0 →
  ∃ g' shown,
    handle_submit now answer g = Ok (g', shown) ∧
    secret_code g' = secret_code g ∧
    lists g' = lists g.
Proof.
  intros Hplaying.
  destruct (forallb (λ c, Py.contains c COLORS) (submitted_colors_of g r)) eqn:Hcheck.
  - apply valid_guess_check in Hcheck.
    destruct (handle_submit_returns g r code now t0 answer Hplaying Hcheck)
      as (g' & shown & e & c & old & c0 & c1 & c2 & c3 & Hrun & _ & _ & _ &
          _ & _ & Hsecret & Hlists & _).
    by exists g', shown.
  - destruct Hplaying as (_ & Hrow & _).
    exists g, [ShowErrorInvalid]. unfold handle_submit. rewrite Hrow. simpl.
    by rewrite Hcheck.
Qed.

(** C8: for every game being played and every submission, valid or not,
    [handle_submit] returns and leaves the secret code as it was: the same
    list object, holding the same colors; the evaluation pops colors from a
    copy only. *)
Theorem secret_code_unchanged g (r : nat) (code : list color) (now t0 : T) (answer : bool) :
  playing g r code t0 →
  ∃ g' shown,
    handle_submit now answer g = Ok (g', shown) ∧
    secret_code g' = secret_code g ∧
    lists g' = lists g ∧
    ∃ sc, secret_code g' = Some sc ∧ lists g' !! sc = Some code.
Proof.
  intros Hplaying.
  destruct (forallb (λ c, Py.contains c COLORS) (submitted_colors_of g r)) eqn:Hcheck.
  - apply valid_guess_check in Hcheck.
    destruct (handle_submit_returns g r code now t0 answer Hplaying Hcheck)
      as (g' & shown & e & c & old & c0 & c1 & c2 & c3 & Hrun & _ & _ & _ &
          _ & _ & Hsecret & Hlists & _).
    destruct Hplaying as (_ & _ & _ & (sc & Hsc & Hcode) & _).
    exists g', shown. split_and!; try done. exists sc. split; congruence.
  - destruct Hplaying as (_ & Hrow & _ & (sc & Hsc & Hcode) & _).
    exists g, [ShowErrorInvalid]. unfold handle_submit. rewrite Hrow. simpl.
    rewrite Hcheck. split_and!; try done. by exists sc.
Qed.

(** C10: for every valid guess of a game being played, the two loops over
    the feedback pegs stay within the four labels of the row: the score
    totals at most 4, the loops end at label index [e + c], and the handler
    returns with [e] red pegs followed by [c] white ones on the row. *)
Theorem feedback_pegs_in_bounds g (r : nat) (code : list color) (now t0 : T)
    (answer : bool) :
  playing g r code t0 →
  valid_guess (submitted_colors_of g r) →
  ∃ g' shown e c feedback_labels,
    handle_submit now answer g = Ok (g', shown) ∧
    (e, c) = Reference.score COLUMNS code (submitted_colors_of g r) ∧
    feedback_label_list g !! (ROWS - 1 - r) = Some feedback_labels ∧
    length feedback_labels = 4 ∧
    e + c ≤ 4 ∧
    ('(feedback_labels, current_label) ← color_pegs "red" e feedback_labels 0;
     color_pegs "white" c feedback_labels current_label)
      = Ok (scored_pegs e c feedback_labels, e + c) ∧
    feedback_label_list g' !! (ROWS - 1 - r) = Some (scored_pegs e c feedback_labels) ∧
    Forall (λ feedback_labels, length feedback_labels = 4) (feedback_label_list g').
Proof.
  intros Hplaying Hvalid.
  destruct (handle_submit_returns g r code now t0 answer Hplaying Hvalid)
    as (g' & shown & e & c & old & c0 & c1 & c2 & c3 & Hrun & Hscore & Hbound & Hfour &
        Hold & Hold4 & Hsecret & Hlists & Hstart & Hlabels & Htext & Hbuttons & Hstartb &
        Hcase).
  exists g', shown, e, c, old. split_and!; try done.
  - apply color_pegs_both. lia.
  - rewrite Hlabels. apply list_lookup_insert_eq. by apply lookup_lt_Some in Hold.
  - destruct Hplaying as (Hboard & _).
    by destruct (board_ok_scored g g' r e c old Hboard Hold Hbound Hlabels Hbuttons)
      as (_ & _ & ?).
Qed.

(** C5: a submitted row holding a background that is not one of [COLORS]
    (a button without a color, or any other value) is rejected with the
    error dialog, before the evaluation, and the game is left as it was:
    same current row, same pegs, same label; and so for any number of such
    submissions in a row. *)
Theorem invalid_guess_rejected g (r : nat) (now : T) (answer : bool) :
  current_row g = Some r →
  ¬ valid_guess (submitted_colors_of g r) →
  handle_submit now answer g = Ok (g, [ShowErrorInvalid]) ∧
  ∀ inputs, repeatedly handle_submit inputs g
            = Ok (g, replicate (length inputs) ShowErrorInvalid).
Proof.
  intros Hrow Hinvalid.
  assert (∀ now answer, handle_submit now answer g = Ok (g, [ShowErrorInvalid])) as Hone.
  { intros now' answer'. unfold handle_submit. rewrite Hrow. simpl.
    destruct (forallb _ _) eqn:Hcheck; [|done].
    by apply valid_guess_check in Hcheck. }
  split; [apply Hone|].
  intros inputs. induction inputs as [|[now' answer'] inputs IH]; [done|].
  simpl. rewrite Hone. simpl. rewrite IH. done.
Qed.

Lemma repeatedly_click_submit_disabled g (inputs : list (T * bool)) :
  submit_button g = DISABLED →
  repeatedly click_submit inputs g = Ok (g, []).
Proof.
  intros Hdisabled.
  assert (∀ now answer, click_submit now answer g = Ok (g, [])) as Hone.
  { intros now answer. unfold click_submit, invoke. by rewrite Hdisabled. }
  induction inputs as [|[now answer] inputs IH]; [done|].
  simpl. rewrite Hone. simpl. by rewrite IH.
Qed.

(** C6, as the code has it: when a valid submission of a game in progress
    wins the game or uses the last row, [handle_submit] disables the submit
    button; from then on every click on it is dropped: the handler is not
    run, the game object stays as it is and nothing is shown. *)
Theorem submit_dropped_after_game_over g (r : nat) (code : list color) (now t0 : T)
    (answer : bool) :
  in_progress g r code t0 →
  valid_guess (submitted_colors_of g r) →
  (Reference.score COLUMNS code (submitted_colors_of g r)).1 = COLUMNS ∨ r = ROWS - 1 →
  ∃ g' shown,
    handle_submit now answer g = Ok (g', shown) ∧
    submit_button g' = DISABLED ∧
    ∀ inputs, repeatedly click_submit inputs g' = Ok (g', []).
Proof.
  intros [Hplaying Hsubmit] Hvalid Hover.
  destruct (handle_submit_returns g r code now t0 answer Hplaying Hvalid)
    as (g' & shown & e & c & old & c0 & c1 & c2 & c3 & Hrun & Hscore & _ & _ &
        _ & _ & _ & _ & _ & _ & _ & _ & _ & Hcase).
  rewrite <- Hscore in Hover. simpl in Hover.
  assert (submit_button g' = DISABLED) as Hdisabled.
  { destruct (decide (e = COLUMNS)) as [He|He]; [by destruct Hcase as (_ & _ & ?)|].
    destruct (decide (r = ROWS - 1)) as [Hlast|Hlast]; [by destruct Hcase as (_ & _ & ?)|].
    by destruct Hover. }
  exists g', shown. split_and!; try done.
  intros inputs. by apply repeatedly_click_submit_disabled.
Qed.

(** [handle_submit] announces a win exactly when the submitted row is the
    secret code. *)
Theorem win_iff_guess_is_secret g (r : nat) (code : list color) (now t0 : T)
    (answer : bool) :
  playing g r code t0 →
  valid_guess (submitted_colors_of g r) →
  ∃ g' shown,
    handle_submit now answer g = Ok (g', shown) ∧
    (ShowInfoWin (r + 1) (time_int (time_sub now t0)) ∈ shown ↔
     submitted_colors_of g r = code).
Proof.
  intros Hplaying Hvalid.
  destruct (handle_submit_returns g r code now t0 answer Hplaying Hvalid)
    as (g' & shown & e & c & old & c0 & c1 & c2 & c3 & Hrun & Hscore & _ & _ &
        _ & _ & _ & _ & _ & _ & _ & _ & _ & Hcase).
  destruct Hplaying as (Hboard & _ & Hr & _ & Hlen & _).
  pose proof (submitted_colors_length g r Hboard Hr) as Hguess.
  assert (e = exact_count code (submitted_colors_of g r)) as He.
  { pose proof (reference_score_counts code (submitted_colors_of g r)) as Href.
    rewrite Hlen, <- Hscore in Href. specialize (Href ltac:(lia)).
    by injection Href. }
  pose proof (exact_count_full code (submitted_colors_of g r)) as Hfull.
  rewrite Hlen, <- He in Hfull.
  exists g', shown. split; [done|]. rewrite <- Hfull by lia.
  destruct (decide (e = COLUMNS)) as [Hwon|Hnot].
  - destruct Hcase as (-> & _). split; [done|]. intros _. apply elem_of_cons. by left.
  - split; [|done]. intros Hin.
    assert (∀ l, ShowInfoWin (r + 1) (time_int (time_sub now t0))
                 ∈ l ++ offer_play_again answer → ∃ x, x ∈ l) as Hshown.
    { intros l [Hl|Ho]%elem_of_app; [eauto|].
      unfold offer_play_again in Ho. apply elem_of_cons in Ho as [[=]|Ho].
      destruct answer; [apply elem_of_cons in Ho as [[=]|Ho]|]; by apply elem_of_nil in Ho. }
    destruct (decide (r = ROWS - 1)).
    + destruct Hcase as (-> & _). apply elem_of_cons in Hin as [[=]|Hin].
      destruct (Hshown [] Hin) as [x Hx]. by apply elem_of_nil in Hx.
    + destruct Hcase as (-> & _). by apply elem_of_nil in Hin.
Qed.

(** A submission changes the feedback pegs of its own row only: the rows
    scored before keep their pegs. *)
Theorem scored_rows_keep_their_pegs g (r : nat) (code : list color) (now t0 : T)
    (answer : bool) :
  playing g r code t0 →
  ∃ g' shown,
    handle_submit now answer g = Ok (g', shown) ∧
    ∀ j, j ≠ ROWS - 1 - r → feedback_label_list g' !! j = feedback_label_list g !! j.
Proof.
  intros Hplaying.
  destruct (forallb (λ c, Py.contains c COLORS) (submitted_colors_of g r)) eqn:Hcheck.
  - apply valid_guess_check in Hcheck.
    destruct (handle_submit_returns g r code now t0 answer Hplaying Hcheck)
      as (g' & shown & e & c & old & c0 & c1 & c2 & c3 & Hrun & _ & _ & _ &
          _ & _ & _ & _ & _ & Hlabels & _).
    exists g', shown. split; [done|]. intros j Hj. rewrite Hlabels.
    by apply list_lookup_insert_ne.
  - destruct Hplaying as (_ & Hrow & _).
    exists g, [ShowErrorInvalid]. unfold handle_submit. rewrite Hrow. simpl.
    by rewrite Hcheck.
Qed.

(** ** Starting a game *)

Lemma append_random_colors (draws : nat → nat) (sc : loc) (h : gmap loc (list color)) :
  ∃ code,
    for_range (append_random_color draws sc) (seq 0 COLUMNS) (<[sc := []]> h)
      = Ok (<[sc := code]> h) ∧
    length code = COLUMNS ∧
    ∀ j, j < COLUMNS → code !! j = COLORS !! (draws j `mod` length COLORS).
Proof.
  destruct (for_range_invariant
    (λ i h', ∃ code, h' = <[sc := code]> h ∧ length code = i ∧
                     ∀ j, j < i → code !! j = COLORS !! (draws j `mod` length COLORS))
    (append_random_color draws sc) COLUMNS (<[sc := []]> h))
    as (h' & Hrun & code & -> & Hlen & Hcode).
  - exists []. split_and!; try done. intros j Hj. lia.
  - intros i h' Hi (code & -> & Hlen & Hcode).
    unfold append_random_color, Py.choice.
    lazymatch goal with
    | |- context [of_option IndexError ?o] => destruct o as [c|] eqn:Hc
    end.
    2:{ apply lookup_ge_None in Hc.
        pose proof (Nat.mod_upper_bound (draws i) (length COLORS)) as Hmod.
        simpl in *. lia. }
    cbn -[Nat.modulo COLORS].
    rewrite lookup_insert_eq. cbn -[Nat.modulo COLORS]. eexists. split; [done|].
    exists (code ++ [c]). rewrite insert_insert_eq.
    split_and!; [done | rewrite length_app; simpl; lia |].
    intros j Hj. destruct (decide (j = i)) as [->|Hne].
    + rewrite lookup_app_r by lia. rewrite Hlen, Nat.sub_diag. by rewrite Hc.
    + rewrite lookup_app_l by lia. apply Hcode. lia.
  - by exists code.
Qed.

(** The game [start_game] returns, attribute by attribute. *)
Lemma start_game_returns g (draws : nat → nat) (now : T) :
  current_row g = None →
  ∃ sc code buttons,
    start_game draws now g
    = Ok (set_start_time (Some now)
            (set_instructional_label SelectFour
               (set_button_list buttons
                  (set_current_row (Some 0)
                     (set_lists (<[sc := code]> (lists g))
                        (set_secret_code (Some sc)
                           (set_submit_button ACTIVE
                              (set_start_button DISABLED g)))))))) ∧
    length buttons = length (button_list g) ∧
    length code = COLUMNS ∧
    ∀ j, j < COLUMNS → code !! j = COLORS !! (draws j `mod` length COLORS).
Proof.
  intros Hrow. unfold start_game.
  cbn -[COLUMNS COLORS Nat.modulo for_range seq increment_current_row].
  set (sc := fresh (dom (lists g))). clearbody sc.
  destruct (append_random_colors draws sc (lists g)) as (code & -> & Hlen & Hcode).
  cbn -[COLUMNS COLORS Nat.modulo increment_current_row].
  lazymatch goal with
  | |- context [increment_current_row ?g0] =>
      destruct (increment_current_row_fresh g0) as (buttons & Hbuttons & ->);
        [exact Hrow|]
  end.
  cbn -[COLUMNS COLORS Nat.modulo]. by exists sc, code, buttons.
Qed.

(** C7: on a game that was not started, [start_game] returns with a secret
    code of [COLUMNS] colors, the color at each position being the one of
    [COLORS] the random source drew for it (so colors can repeat), with
    current row 0, the start time recorded, the submit button active and the
    start button disabled: the game is in progress at row 0. *)
Theorem start_game_starts g (draws : nat → nat) (now : T) :
  current_row g = None →
  ∃ g' sc code,
    start_game draws now g = Ok g' ∧
    secret_code g' = Some sc ∧
    lists g' !! sc = Some code ∧
    length code = COLUMNS ∧
    Forall (λ c, c ∈ COLORS) code ∧
    (∀ j, j < COLUMNS → code !! j = COLORS !! (draws j `mod` length COLORS)) ∧
    current_row g' = Some 0 ∧
    start_time g' = Some now ∧
    submit_button g' = ACTIVE ∧
    start_button g' = DISABLED ∧
    (board_ok g → in_progress g' 0 code now).
Proof.
  intros Hrow.
  destruct (start_game_returns g draws now Hrow)
    as (sc & code & buttons & Hrun & Hbuttons & Hlen & Hcode).
  assert (Forall (λ c, c ∈ COLORS) code) as Hcolors.
  { apply Forall_lookup_2. intros j c Hj.
    rewrite Hcode in Hj by (rewrite <- Hlen; by apply lookup_lt_Some in Hj).
    by apply list_elem_of_lookup_2 in Hj. }
  assert (<[sc := code]> (lists g) !! sc = Some code) as Hstored
    by apply lookup_insert_eq.
  eexists _, sc, code. split; [exact Hrun|]. simpl_game.
  split_and!; try done.
  intros (Hb & Hrows & Hlabels). unfold in_progress, playing, board_ok. simpl_game.
  split_and!; try done.
  - by rewrite Hbuttons.
  - unfold ROWS. lia.
  - by exists sc.
Qed.

(** ** Every click is handled *)

Lemma playing_frame g g' (r r' : nat) (code : list color) (t0 : T) :
  playing g r code t0 →
  board_ok g' →
  current_row g' = Some r' →
  r' < ROWS →
  secret_code g' = secret_code g →
  lists g' = lists g →
  start_time g' = start_time g →
  playing g' r' code t0.
Proof.
  intros (_ & _ & _ & (sc & Hsc & Hcode) & Hlen & Ht0) Hboard Hrow Hr Hsecret Hlists Hstart.
  unfold playing. split_and!; try done; [|congruence].
  exists sc. split; congruence.
Qed.

(** From a consistent game every click returns, without an exception, in a
    consistent game. *)
Lemma press_consistent g (a : action) :
  consistent g →
  ∃ g' shown, press a g = Ok (g', shown) ∧ consistent g'.
Proof.
  intros [Hboard Hrow]. destruct a as [draws now|c|row column|now answer]; simpl.
  - unfold click_start, invoke.
    destruct (decide (start_button g = DISABLED)) as [Hstart|Hstart].
    { by exists g, []. }
    destruct (current_row g) as [r|] eqn:Hr; [by destruct Hrow|].
    destruct (start_game_returns g draws now Hr)
      as (sc & code & buttons & -> & Hbuttons & Hlen & _).
    eexists _, []. split; [done|].
    destruct Hboard as (Hb & Hrows & Hlabels).
    assert (<[sc := code]> (lists g) !! sc = Some code) as Hstored
      by apply lookup_insert_eq.
    unfold consistent, playing, board_ok. simpl_game.
    split_and!; try done; try (by rewrite Hbuttons).
    exists code, now. split_and!; try done; try (by rewrite Hbuttons).
    + unfold ROWS. lia.
    + by exists sc.
  - exists (set_color c g), []. split; [done|]. split; [done|].
    unfold set_color. simpl_game. destruct (current_row g) as [r|] eqn:Hr; [|done].
    destruct Hrow as (Hstart & code & t0 & Hplaying). split; [done|].
    exists code, t0. apply (playing_frame g _ r r code t0); try done.
    by destruct Hplaying as (_ & _ & ? & _).
  - unfold click_button.
    destruct (button_list g !! (row * COLUMNS + column)) as [b|] eqn:Hb; [|by exists g, []].
    unfold invoke. destruct (decide (state b = DISABLED)); [by exists g, []|].
    unfold update_button_color. rewrite Hb. simpl. eexists _, _. split; [done|].
    destruct Hboard as (Hbuttons & Hrows & Hlabels).
    assert (board_ok
      (set_button_list
         (<[row * COLUMNS + column := mkButton (current_color g) (state b)]> (button_list g))
         g)) as Hboard'.
    { unfold board_ok. simpl_game. by rewrite length_insert. }
    split; [done|]. simpl_game. destruct (current_row g) as [r|] eqn:Hr; [|done].
    destruct Hrow as (Hstart & code & t0 & Hplaying). split; [done|].
    exists code, t0. apply (playing_frame g _ r r code t0); try done.
    by destruct Hplaying as (_ & _ & ? & _).
  - unfold click_submit, invoke.
    destruct (decide (submit_button g = DISABLED)) as [Hsubmit|Hsubmit].
    { by exists g, []. }
    destruct (current_row g) as [r|] eqn:Hr; [|done].
    destruct Hrow as (Hstart & code & t0 & Hplaying).
    destruct (forallb (λ c, Py.contains c COLORS) (submitted_colors_of g r)) eqn:Hcheck.
    + apply valid_guess_check in Hcheck.
      destruct (handle_submit_returns g r code now t0 answer Hplaying Hcheck)
        as (g' & shown & e & c & old & c0 & c1 & c2 & c3 & -> & _ & Hbound & _ &
            Hold & _ & Hsecret & Hlists & Hstart' & Hlabels & _ & Hbuttons & Hstartb &
            Hcase).
      pose proof (board_ok_scored g g' r e c old Hboard Hold Hbound Hlabels Hbuttons)
        as Hboard'.
      assert (r < ROWS) as Hlt by (by destruct Hplaying as (_ & _ & ? & _)).
      assert (∃ r', current_row g' = Some r' ∧ r' < ROWS) as (r' & Hr' & Hlt').
      { destruct (decide (e = COLUMNS)); [|destruct (decide (r = ROWS - 1))].
        - exists r. by destruct Hcase as (_ & ? & _).
        - exists r. by destruct Hcase as (_ & ? & _).
        - exists (r + 1). destruct Hcase as (_ & ? & _). split; [done|].
          unfold ROWS in *. lia. }
      exists g', shown. split; [done|]. split; [done|]. rewrite Hr'.
      split; [congruence|]. exists code, t0.
      by apply (playing_frame g g' r r' code t0).
    + exists g, [ShowErrorInvalid]. unfold handle_submit. rewrite Hr. simpl.
      rewrite Hcheck. split; [done|]. split; [done|]. rewrite Hr. split; [done|].
      by exists code, t0.
Qed.

Lemma reachable_consistent g : reachable g → consistent g.
Proof.
  induction 1 as [|a g g' shown _ IH Hpress].
  - split; [apply new_game_board_ok | done].
  - destruct (press_consistent g a IH) as (g'' & shown' & Hpress' & Hconsistent).
    rewrite Hpress in Hpress'. by injection Hpress' as <- <-.
Qed.

Lemma reachable_run g g' (actions : list action) :
  reachable g → run actions g = Ok g' → reachable g'.
Proof.
  revert g. induction actions as [|a actions IH]; intros g Hreachable Hrun; simpl in Hrun.
  - by injection Hrun as <-.
  - destruct (press a g) as [[g1 shown]|e] eqn:Hpress; [|done]. simpl in Hrun.
    apply (IH g1); [|done]. by apply (reachable_press a g g1 shown).
Qed.

(** Every game object that has a current row is a game being played. *)
Lemma reachable_playing g (r : nat) :
  reachable g → current_row g = Some r → ∃ code t0, playing g r code t0.
Proof.
  intros [_ Hrow]%reachable_consistent Hr. rewrite Hr in Hrow.
  by destruct Hrow as [_ Hplaying].
Qed.

(** Whatever the player clicks, and in whatever order, no handler raises an
    exception. *)
Lemma press_never_raises g (a : action) :
  reachable g → ∃ g' shown, press a g = Ok (g', shown).
Proof.
  intros Hreachable%reachable_consistent.
  destruct (press_consistent g a Hreachable) as (g' & shown & Hpress & _).
  by exists g', shown.
Qed.

(** The current row of a game object stays within the rows of the board, and
    the board keeps its [ROWS * COLUMNS] buttons and [ROWS] rows of 4 pegs. *)
Theorem current_row_in_range g (r : nat) :
  reachable g → current_row g = Some r →
  r ≤ ROWS - 1 ∧
  length (button_list g) = ROWS * COLUMNS ∧
  length (feedback_label_list g) = ROWS ∧
  Forall (λ feedback_labels, length feedback_labels = 4) (feedback_label_list g).
Proof.
  intros Hreachable Hr.
  destruct (reachable_playing g r Hreachable Hr) as (code & t0 & Hboard & _ & Hlt & _).
  destruct Hboard as (Hbuttons & Hrows & Hlabels).
  split_and!; try done. unfold ROWS in *. lia.
Qed.

(** Once the game has started no click changes the secret code: every click
    returns with the same list object holding the same colors. *)
Theorem secret_code_fixed_once_started g (r : nat) (a : action) :
  reachable g → current_row g = Some r →
  ∃ g' shown,
    press a g = Ok (g', shown) ∧
    secret_code g' = secret_code g ∧
    lists g' = lists g.
Proof.
  intros Hreachable Hr.
  destruct (reachable_consistent g Hreachable) as [Hboard Hrow].
  rewrite Hr in Hrow. destruct Hrow as (Hstart & code & t0 & Hplaying).
  destruct a as [draws now|c|row column|now answer]; simpl.
  - unfold click_start, invoke. rewrite Hstart, decide_True by done. by exists g, [].
  - by exists (set_color c g), [].
  - unfold click_button.
    destruct (button_list g !! (row * COLUMNS + column)) as [b|] eqn:Hb; [|by exists g, []].
    unfold invoke. destruct (decide (state b = DISABLED)); [by exists g, []|].
    unfold update_button_color. rewrite Hb. simpl. by eexists _, _.
  - unfold click_submit, invoke.
    destruct (decide (submit_button g = DISABLED)); [by exists g, []|].
    destruct (secret_code_kept g r code now t0 answer Hplaying)
      as (g' & shown & Hrun & Hsecret & Hlists).
    by exists g', shown.
Qed.

End turns.

(** ** The sample games *)


Lemma reachable_play (actions : list action) : reachable (Sample.play actions).
Proof.
  unfold Sample.play. destruct (run actions new_game) as [g|e] eqn:Hrun.
  - apply (reachable_run new_game g actions); [apply reachable_new | done].
  - apply reachable_new.
Qed.

Ltac sample_playing :=
  unfold in_progress, playing, board_ok;
  split_and!;
  try (exists 0; split);
  try (vm_compute; reflexivity);
  try (unfold ROWS; lia);
  try (vm_compute; repeat constructor).

Lemma turn_advances_witness :
  in_progress Sample.near 0 Sample.secret Sample.t0 ∧
  valid_guess (submitted_colors_of Sample.near 0) ∧
  ∃ g' shown e c,
    handle_submit Sample.t1 false Sample.near = Ok (g', shown) ∧
    (e, c) = Reference.score COLUMNS Sample.secret (submitted_colors_of Sample.near 0) ∧
    instructional_label g' = Feedback c e ∧
    if decide (e = COLUMNS) then
      shown = ShowInfoWin (0 + 1) (time_int (time_sub Sample.t1 Sample.t0))
                :: offer_play_again false ∧
      current_row g' = Some 0 ∧ submit_button g' = DISABLED
    else if decide (0 = ROWS - 1) then
      (∃ c0 c1 c2 c3, Sample.secret = [c0; c1; c2; c3] ∧
         shown = ShowWarningLose c0 c1 c2 c3 :: offer_play_again false) ∧
      current_row g' = Some 0 ∧ submit_button g' = DISABLED
    else
      shown = [] ∧ in_progress g' (0 + 1) Sample.secret Sample.t0.
Proof.
  split; [sample_playing|]. split; [apply valid_guess_check; reflexivity|].
  apply (turn_advances Sample.near 0 Sample.secret Sample.t1 Sample.t0 false).
  - sample_playing.
  - apply valid_guess_check. reflexivity.
Defined.

(** The claim C2 has the elapsed seconds of a win equal to [now - startTime];
    the code truncates the difference: a game won 1.5 seconds after its start
    is announced as won in 1 second. *)
Lemma won_elapsed_seconds_truncated :
  in_progress Sample.winning 0 Sample.secret Sample.t0 ∧
  valid_guess (submitted_colors_of Sample.winning 0) ∧
  handle_submit Sample.t1 false Sample.winning
    = Ok (Sample.won, [ShowInfoWin 1 1; AskPlayAgain]) ∧
  ¬ (inject_Z 1 == Sample.t1 - Sample.t0)%Q.
Proof.
  split_and!.
  - sample_playing.
  - apply valid_guess_check. reflexivity.
  - vm_compute. reflexivity.
  - intros Heq. vm_compute in Heq. discriminate Heq.
Qed.

Lemma secret_code_unchanged_witness :
  playing Sample.near 0 Sample.secret Sample.t0 ∧
  ∃ g' shown,
    handle_submit Sample.t1 false Sample.near = Ok (g', shown) ∧
    secret_code g' = secret_code Sample.near ∧
    lists g' = lists Sample.near ∧
    ∃ sc, secret_code g' = Some sc ∧ lists g' !! sc = Some Sample.secret.
Proof.
  split; [sample_playing|].
  apply (secret_code_unchanged Sample.near 0 Sample.secret Sample.t1 Sample.t0 false).
  sample_playing.
Defined.

Lemma feedback_pegs_in_bounds_witness :
  playing Sample.near 0 Sample.secret Sample.t0 ∧
  valid_guess (submitted_colors_of Sample.near 0) ∧
  ∃ g' shown e c feedback_labels,
    handle_submit Sample.t1 false Sample.near = Ok (g', shown) ∧
    (e, c) = Reference.score COLUMNS Sample.secret (submitted_colors_of Sample.near 0) ∧
    feedback_label_list Sample.near !! (ROWS - 1 - 0) = Some feedback_labels ∧
    length feedback_labels = 4 ∧
    e + c ≤ 4 ∧
    ('(feedback_labels, current_label) ← color_pegs "red" e feedback_labels 0;
     color_pegs "white" c feedback_labels current_label)
      = Ok (scored_pegs e c feedback_labels, e + c) ∧
    feedback_label_list g' !! (ROWS - 1 - 0) = Some (scored_pegs e c feedback_labels) ∧
    Forall (λ feedback_labels, length feedback_labels = 4) (feedback_label_list g').
Proof.
  split; [sample_playing|]. split; [apply valid_guess_check; reflexivity|].
  apply (feedback_pegs_in_bounds Sample.near 0 Sample.secret Sample.t1 Sample.t0 false).
  - sample_playing.
  - apply valid_guess_check. reflexivity.
Defined.

Lemma invalid_guess_rejected_witness :
  current_row Sample.incomplete = Some 0 ∧
  submitted_colors_of Sample.incomplete 0 = ["blue"; "red"; "pink"; "SystemButtonFace"] ∧
  ¬ valid_guess (submitted_colors_of Sample.incomplete 0) ∧
  handle_submit Sample.t1 false Sample.incomplete = Ok (Sample.incomplete, [ShowErrorInvalid]) ∧
  ∀ inputs, repeatedly handle_submit inputs Sample.incomplete
            = Ok (Sample.incomplete, replicate (length inputs) ShowErrorInvalid).
Proof.
  assert (¬ valid_guess (submitted_colors_of Sample.incomplete 0)) as Hinvalid.
  { intros Hvalid%valid_guess_check. vm_compute in Hvalid. discriminate Hvalid. }
  split; [reflexivity|]. split; [reflexivity|]. split; [exact Hinvalid|].
  apply (invalid_guess_rejected Sample.incomplete 0 Sample.t1 false);
    [reflexivity | exact Hinvalid].
Defined.

Lemma submit_dropped_after_game_over_witness :
  in_progress Sample.last_row 14 Sample.secret Sample.t0 ∧
  valid_guess (submitted_colors_of Sample.last_row 14) ∧
  14 = ROWS - 1 ∧
  ∃ g' shown,
    handle_submit Sample.t1 false Sample.last_row = Ok (g', shown) ∧
    submit_button g' = DISABLED ∧
    ∀ inputs, repeatedly click_submit inputs g' = Ok (g', []).
Proof.
  split; [sample_playing|]. split; [apply valid_guess_check; reflexivity|].
  split; [reflexivity|].
  apply (submit_dropped_after_game_over Sample.last_row 14 Sample.secret
           Sample.t1 Sample.t0 false).
  - sample_playing.
  - apply valid_guess_check. reflexivity.
  - right. reflexivity.
Defined.

(** The claim C6 has a submission after the end of the game fail with
    [GameOver]. The code has no such failure: run on the game won above, the
    handler evaluates the row again, announces the win again and calls
    [play_again] when the player accepts; run on the lost game it shows the
    secret code again; a click on the disabled submit button is dropped
    without any signal. *)
Lemma game_over_not_signalled :
  handle_submit Sample.t2 true Sample.won
    = Ok (Sample.won, [ShowInfoWin 1 3; AskPlayAgain; CallPlayAgain]) ∧
  handle_submit Sample.t2 false Sample.lost
    = Ok (Sample.lost, [ShowWarningLose "red" "blue" "pink" "yellow"; AskPlayAgain]) ∧
  click_submit Sample.t2 true Sample.won = Ok (Sample.won, []) ∧
  click_submit Sample.t2 false Sample.lost = Ok (Sample.lost, []).
Proof. split_and!; vm_compute; reflexivity. Qed.

Lemma start_game_starts_witness :
  current_row (new_game (T := Q)) = None ∧
  ∃ g' sc code,
    start_game (λ i, i) Sample.t0 new_game = Ok g' ∧
    secret_code g' = Some sc ∧
    lists g' !! sc = Some code ∧
    length code = COLUMNS ∧
    Forall (λ c, c ∈ COLORS) code ∧
    (∀ j, j < COLUMNS → code !! j = COLORS !! ((λ i, i) j `mod` length COLORS)) ∧
    current_row g' = Some 0 ∧
    start_time g' = Some Sample.t0 ∧
    submit_button g' = ACTIVE ∧
    start_button g' = DISABLED ∧
    (board_ok (new_game (T := Q)) → in_progress g' 0 code Sample.t0).
Proof.
  split; [reflexivity|].
  apply (start_game_starts new_game (λ i, i) Sample.t0). reflexivity.
Defined.

(** Duplicates: a random source that draws 0 every time yields four reds. *)
Lemma start_game_can_repeat_colors :
  ∃ g' sc, start_game (λ _, 0) Sample.t0 new_game = Ok g' ∧
           secret_code g' = Some sc ∧
           lists g' !! sc = Some ["red"; "red"; "red"; "red"].
Proof. eexists _, 0. split_and!; vm_compute; reflexivity. Qed.

(** ** Further samples *)

Lemma press_never_raises_witness :
  reachable Sample.won ∧
  ∃ g' shown, press (PressSubmit Sample.t2 true) Sample.won = Ok (g', shown).
Proof.
  split; [apply reachable_play|].
  apply (press_never_raises Sample.won (PressSubmit Sample.t2 true)), reachable_play.
Defined.

Lemma win_iff_guess_is_secret_witness :
  playing Sample.winning 0 Sample.secret Sample.t0 ∧
  valid_guess (submitted_colors_of Sample.winning 0) ∧
  ∃ g' shown,
    handle_submit Sample.t1 false Sample.winning = Ok (g', shown) ∧
    (ShowInfoWin (0 + 1) (time_int (time_sub Sample.t1 Sample.t0)) ∈ shown ↔
     submitted_colors_of Sample.winning 0 = Sample.secret).
Proof.
  split; [sample_playing|]. split; [apply valid_guess_check; reflexivity|].
  apply (win_iff_guess_is_secret Sample.winning 0 Sample.secret Sample.t1 Sample.t0 false).
  - sample_playing.
  - apply valid_guess_check. reflexivity.
Defined.

Lemma scored_rows_keep_their_pegs_witness :
  playing Sample.last_row 14 Sample.secret Sample.t0 ∧
  ∃ g' shown,
    handle_submit Sample.t1 false Sample.last_row = Ok (g', shown) ∧
    ∀ j, j ≠ ROWS - 1 - 14 →
         feedback_label_list g' !! j = feedback_label_list Sample.last_row !! j.
Proof.
  split; [sample_playing|].
  apply (scored_rows_keep_their_pegs Sample.last_row 14 Sample.secret
           Sample.t1 Sample.t0 false).
  sample_playing.
Defined.

Lemma current_row_in_range_witness :
  reachable Sample.lost ∧
  current_row Sample.lost = Some 14 ∧
  14 ≤ ROWS - 1 ∧
  length (button_list Sample.lost) = ROWS * COLUMNS ∧
  length (feedback_label_list Sample.lost) = ROWS ∧
  Forall (λ feedback_labels, length feedback_labels = 4) (feedback_label_list Sample.lost).
Proof.
  split; [apply reachable_play|]. split; [reflexivity|].
  apply (current_row_in_range Sample.lost 14); [apply reachable_play | reflexivity].
Defined.

Lemma secret_code_fixed_once_started_witness :
  reachable Sample.near ∧
  current_row Sample.near = Some 0 ∧
  ∃ g' shown,
    press (PressSubmit Sample.t1 false) Sample.near = Ok (g', shown) ∧
    secret_code g' = secret_code Sample.near ∧
    lists g' = lists Sample.near.
Proof.
  split; [apply reachable_play|]. split; [reflexivity|].
  apply (secret_code_fixed_once_started Sample.near 0 (PressSubmit Sample.t1 false));
    [apply reachable_play | reflexivity].
Defined.

(** ** Comparing two rows *)

Lemma positions_swap (secret guess : list color) :
  positions guess secret = prod_swap <$> positions secret guess.
Proof.
  unfold positions. revert guess.
  induction secret as [|s secret IH]; intros [|g guess]; simpl; try done.
  by rewrite IH.
Qed.

Lemma filter_exact_swap (l : list (color * color)) :
  filter exact (prod_swap <$> l) = prod_swap <$> filter exact l.
Proof.
  induction l as [|[s g] l IH]; [done|].
  rewrite fmap_cons, !filter_cons.
  destruct (decide (exact (s, g))) as [He|He];
    destruct (decide (exact (prod_swap (s, g)))) as [He'|He'];
    unfold exact in He, He'; simpl in He, He'; try congruence.
  by rewrite fmap_cons, IH.
Qed.

Lemma filter_other_swap (l : list (color * color)) :
  filter (λ p, ¬ exact p) (prod_swap <$> l) = prod_swap <$> filter (λ p, ¬ exact p) l.
Proof.
  induction l as [|[s g] l IH]; [done|].
  rewrite fmap_cons, !filter_cons.
  destruct (decide (¬ exact (s, g))) as [He|He];
    destruct (decide (¬ exact (prod_swap (s, g)))) as [He'|He'];
    unfold exact in He, He'; simpl in He, He'; try done;
    try (by rewrite fmap_cons, IH).
Qed.

Lemma counts_swap (secret guess : list color) :
  exact_count guess secret = exact_count secret guess ∧
  color_count guess secret = color_count secret guess.
Proof.
  unfold exact_count, color_count, exact_positions, other_positions.
  rewrite positions_swap, filter_exact_swap, filter_other_swap, length_fmap.
  split; [done|].
  rewrite <- !list_fmap_compose.
  assert (∀ l : list (color * color), (snd ∘ prod_swap) <$> l = l.*1) as Hsnd.
  { intros l. apply list_fmap_ext. by intros i [s g] _. }
  assert (∀ l : list (color * color), (fst ∘ prod_swap) <$> l = l.*2) as Hfst.
  { intros l. apply list_fmap_ext. by intros i [s g] _. }
  rewrite Hsnd, Hfst. f_equal. apply gmultiset_eq. intros y.
  rewrite !multiplicity_intersection. lia.
Qed.

Lemma colors_of_perm (l k : list color) : colors_of l = colors_of k → l ≡ₚ k.
Proof.
  revert k. induction l as [|x l IH]; intros k Hk.
  - destruct k as [|y k]; [done|].
    assert (y ∈ colors_of []) as Hy.
    { rewrite Hk. apply elem_of_list_to_set_disj, elem_of_cons. by left. }
    apply elem_of_list_to_set_disj in Hy. by apply elem_of_nil in Hy.
  - assert (x ∈ k) as Hx.
    { apply elem_of_list_to_set_disj. unfold colors_of in Hk. rewrite <- Hk.
      apply elem_of_list_to_set_disj, elem_of_cons. by left. }
    rewrite (remove_one_perm x k Hx). constructor. apply IH.
    apply gmultiset_eq. intros y.
    assert (multiplicity y (colors_of (x :: l)) = multiplicity y (colors_of k)) as Hm
      by (by rewrite Hk).
    unfold colors_of in *.
    rewrite (remove_one_perm x k Hx) in Hm at 1.
    rewrite !list_to_set_disj_cons, !multiplicity_disj_union in Hm. lia.
Qed.

Lemma shared_all (A B : gmultiset color) :
  size A = size B → size (A ∩ B) = size B ↔ A = B.
Proof.
  intros Hsize. split.
  - intros Hshared.
    assert (∀ X Y : gmultiset color, X ⊆ Y → size X = size Y → X = Y) as Heq.
    { intros X Y Hsub HXY.
      rewrite (gmultiset_disj_union_difference X Y Hsub) in HXY |- *.
      rewrite gmultiset_size_disj_union in HXY.
      assert (size (Y ∖ X) = 0) as Hempty%gmultiset_size_empty_inv by lia.
      rewrite Hempty. apply gmultiset_eq. intros y.
      rewrite multiplicity_disj_union, multiplicity_empty. lia. }
    assert (A ∩ B = B) as HB.
    { apply Heq; [|done]. intros y. rewrite multiplicity_intersection. lia. }
    assert (A ∩ B = A) as HA.
    { apply Heq; [|lia]. intros y. rewrite multiplicity_intersection. lia. }
    congruence.
  - intros ->. f_equal. apply gmultiset_eq. intros y.
    rewrite multiplicity_intersection. lia.
Qed.

Lemma shared_none (guess secret : list color) :
  size (colors_of guess ∩ colors_of secret) = 0 ↔ ∀ x, x ∈ guess → x ∉ secret.
Proof.
  rewrite gmultiset_size_empty_iff. unfold colors_of. split.
  - intros Hempty x Hg Hs.
    assert (x ∈ list_to_set_disj guess ∩ (list_to_set_disj secret : gmultiset color)) as Hx.
    { apply gmultiset_elem_of_intersection.
      split; by apply elem_of_list_to_set_disj. }
    rewrite Hempty in Hx. by apply gmultiset_not_elem_of_empty in Hx.
  - intros Hnone. apply gmultiset_eq. intros x.
    rewrite multiplicity_intersection, multiplicity_empty.
    destruct (decide (x ∈ guess)) as [Hg|Hg].
    + assert (x ∉ (list_to_set_disj secret : gmultiset color)) as Hs.
      { rewrite elem_of_list_to_set_disj. by apply Hnone. }
      apply not_elem_of_multiplicity in Hs. lia.
    + assert (x ∉ (list_to_set_disj guess : gmultiset color)) as Hs.
      { by rewrite elem_of_list_to_set_disj. }
      apply not_elem_of_multiplicity in Hs. lia.
Qed.

(** Scoring compares two rows: it gives the same counters when the secret
    code and the guess change places. *)
Theorem score_symmetric (columns : nat) (h h' : gmap loc (list color))
    (sc sc' : loc) (secret guess : list color) :
  h !! sc = Some secret →
  h' !! sc' = Some guess →
  length secret = columns →
  length guess = columns →
  ∃ rl st rl' st',
    evaluate columns h sc guess = Ok (rl, st) ∧
    evaluate columns h' sc' secret = Ok (rl', st') ∧
    correct_color_count st' = correct_color_count st ∧
    correct_location_color_count st' = correct_location_color_count st.
Proof.
  intros Hsc Hsc' Hs Hg.
  destruct (evaluate_counts columns h sc secret guess Hsc Hs Hg)
    as (st & Hrun & _ & Hexact & Hcolor & _).
  destruct (evaluate_counts columns h' sc' guess secret Hsc' Hg Hs)
    as (st' & Hrun' & _ & Hexact' & Hcolor' & _).
  exists (fresh (dom h)), st, (fresh (dom h')), st'.
  destruct (counts_swap secret guess) as [He Hc].
  split_and!; try done; congruence.
Qed.

Lemma score_symmetric_witness :
  Sample.store_repeated !! 0 = Some Sample.repeated ∧
  ({[ 7 := ["red"; "blue"; "red"; "yellow"] ]} : gmap loc (list color)) !! 7
    = Some ["red"; "blue"; "red"; "yellow"] ∧
  ∃ rl st rl' st',
    evaluate 4 Sample.store_repeated 0 ["red"; "blue"; "red"; "yellow"] = Ok (rl, st) ∧
    evaluate 4 {[ 7 := ["red"; "blue"; "red"; "yellow"] ]} 7 Sample.repeated = Ok (rl', st') ∧
    correct_color_count st' = correct_color_count st ∧
    correct_location_color_count st' = correct_location_color_count st.
Proof.
  split; [reflexivity|]. split; [reflexivity|].
  apply (score_symmetric 4 Sample.store_repeated _ 0 7 Sample.repeated); reflexivity.
Defined.

(** The two counters add up to the number of columns exactly when the guess
    holds the colors of the secret code, each as many times, in some order. *)
Theorem full_total_iff_rearranged (columns : nat) (h : gmap loc (list color))
    (sc : loc) (secret guess : list color) :
  h !! sc = Some secret →
  length secret = columns →
  length guess = columns →
  ∃ rl st, evaluate columns h sc guess = Ok (rl, st) ∧
           (correct_color_count st + correct_location_color_count st = columns
            ↔ guess ≡ₚ secret).
Proof.
  intros Hsc Hs Hg.
  destruct (evaluate_counts columns h sc secret guess Hsc Hs Hg)
    as (st & Hrun & _ & Hexact & Hcolor & _).
  exists (fresh (dom h)), st. split; [done|].
  rewrite Hexact, Hcolor, counts_shared by lia.
  rewrite <- Hs, <- (size_colors_of secret).
  rewrite shared_all by (rewrite !size_colors_of; lia).
  split; [apply colors_of_perm|]. intros Hperm. unfold colors_of. by rewrite Hperm.
Qed.

Lemma full_total_iff_rearranged_witness :
  Sample.store_repeated !! 0 = Some Sample.repeated ∧
  ∃ rl st, evaluate 4 Sample.store_repeated 0 ["green"; "red"; "red"; "blue"] = Ok (rl, st) ∧
           (correct_color_count st + correct_location_color_count st = 4
            ↔ ["green"; "red"; "red"; "blue"] ≡ₚ Sample.repeated).
Proof.
  split; [reflexivity|].
  apply (full_total_iff_rearranged 4 Sample.store_repeated 0 Sample.repeated); reflexivity.
Defined.

(** Both counters are zero exactly when no color of the guess occurs in the
    secret code. *)
Theorem zero_score_iff_no_common_color (columns : nat) (h : gmap loc (list color))
    (sc : loc) (secret guess : list color) :
  h !! sc = Some secret →
  length secret = columns →
  length guess = columns →
  ∃ rl st, evaluate columns h sc guess = Ok (rl, st) ∧
           (correct_color_count st = 0 ∧ correct_location_color_count st = 0
            ↔ ∀ x, x ∈ guess → x ∉ secret).
Proof.
  intros Hsc Hs Hg.
  destruct (evaluate_counts columns h sc secret guess Hsc Hs Hg)
    as (st & Hrun & _ & Hexact & Hcolor & _).
  exists (fresh (dom h)), st. split; [done|].
  rewrite <- shared_none, <- (counts_shared secret guess) by lia.
  rewrite Hexact, Hcolor. lia.
Qed.

Lemma zero_score_iff_no_common_color_witness :
  Sample.store_repeated !! 0 = Some Sample.repeated ∧
  ∃ rl st, evaluate 4 Sample.store_repeated 0 ["cyan"; "pink"; "cyan"; "yellow"] = Ok (rl, st) ∧
           (correct_color_count st = 0 ∧ correct_location_color_count st = 0
            ↔ ∀ x, x ∈ ["cyan"; "pink"; "cyan"; "yellow"] → x ∉ Sample.repeated).
Proof.
  split; [reflexivity|].
  apply (zero_score_iff_no_common_color 4 Sample.store_repeated 0 Sample.repeated);
    reflexivity.
Defined.

(** ** The rows of buttons *)

Lemma slice_bound_le (len : nat) (i : Z) : Py.slice_bound len i ≤ len.
Proof.
  unfold Py.slice_bound. destruct (Z.ltb_spec i 0); lia.
Qed.

(** Configuring a slice configures the widgets at its positions, and no
    other. *)
Lemma configure_slice_lookup {A} (f : A → A) (l : list A) (a b : Z) (i : nat) :
  Py.configure_slice f l a b !! i
  = if decide (Py.slice_bound (length l) a ≤ i < Py.slice_bound (length l) b)
    then f <$> l !! i else l !! i.
Proof.
  unfold Py.configure_slice.
  pose proof (slice_bound_le (length l) a) as Hs.
  pose proof (slice_bound_le (length l) b) as He.
  set (s := Py.slice_bound (length l) a) in *.
  set (e := Py.slice_bound (length l) b) in *.
  destruct (decide (i < s)) as [Hlt|Hge].
  - rewrite lookup_app_l by (rewrite length_take; lia).
    rewrite lookup_take_lt by done. by rewrite decide_False by lia.
  - rewrite lookup_app_r by (rewrite length_take; lia).
    rewrite length_take, Nat.min_l by lia.
    destruct (decide (i < e)) as [Hin|Hout].
    + rewrite decide_True by lia.
      rewrite lookup_app_l by (rewrite length_fmap, length_take, length_drop; lia).
      rewrite list_lookup_fmap, lookup_take_lt, lookup_drop by lia.
      do 2 f_equal. lia.
    + rewrite decide_False by lia.
      rewrite lookup_app_r by (rewrite length_fmap, length_take, length_drop; lia).
      rewrite length_fmap, length_take, length_drop, lookup_drop. f_equal. lia.
Qed.

Lemma row_configure_lookup {A} (f : A → A) (l : list A) (r i : nat) :
  length l = ROWS * COLUMNS → r < ROWS →
  Py.configure_slice f l (start_index r) (end_index r) !! i
  = if decide (in_row r i) then f <$> l !! i else l !! i.
Proof.
  intros Hl Hr. rewrite configure_slice_lookup.
  rewrite start_index_nat, end_index_nat by done.
  rewrite !slice_bound_in_range by (unfold ROWS, COLUMNS in *; lia).
  destruct (decide (in_row r i)) as [Hin|Hout];
    [rewrite decide_True | rewrite decide_False]; done.
Qed.

Lemma in_row_inj (r r' i : nat) :
  r < ROWS → r' < ROWS → in_row r i → in_row r' i → r = r'.
Proof. unfold in_row, ROWS, COLUMNS. lia. Qed.

Lemma in_row_column (r column : nat) :
  column < COLUMNS → in_row r ((ROWS - 1 - r) * COLUMNS + column).
Proof. unfold in_row. lia. Qed.

Lemma in_row_button (r row column : nat) :
  r < ROWS → column < COLUMNS →
  in_row r (row * COLUMNS + column) ↔ row = ROWS - 1 - r.
Proof. unfold in_row, ROWS, COLUMNS. lia. Qed.

Section rows.
Context {T : Type} `{!Clock T}.
Implicit Types (g : MastermindGame T).

Lemma submitted_colors_lookup g (r j : nat) :
  length (button_list g) = ROWS * COLUMNS → r < ROWS → j < COLUMNS →
  submitted_colors_of g r !! j
  = background <$> button_list g !! ((ROWS - 1 - r) * COLUMNS + j).
Proof.
  intros Hb Hr Hj. unfold submitted_colors_of.
  rewrite row_slice, list_lookup_fmap, lookup_take_lt, lookup_drop by done. done.
Qed.

(** Two boards whose buttons of row [r] have the same backgrounds hold the
    same row of submitted colors. *)
Lemma submitted_colors_ext g g' (r : nat) :
  length (button_list g) = ROWS * COLUMNS →
  length (button_list g') = ROWS * COLUMNS →
  r < ROWS →
  (∀ i, in_row r i →
        background <$> button_list g' !! i = background <$> button_list g !! i) →
  submitted_colors_of g' r = submitted_colors_of g r.
Proof.
  intros Hb Hb' Hr Hsame. apply list_eq. intros j.
  destruct (decide (j < COLUMNS)) as [Hj|Hj].
  - rewrite !submitted_colors_lookup by done. apply Hsame. by apply in_row_column.
  - unfold submitted_colors_of.
    rewrite !lookup_ge_None_2; [done | |]; rewrite length_fmap, length_row_slice by done; lia.
Qed.

End rows.

(** ** Painting a button *)

Section painting.
Context {T : Type} `{!Clock T}.
Implicit Types (g : MastermindGame T).

(** A click on a palette color and then on the button of a column of row
    [r] puts the color at that position of the row, and changes no other
    position of the board and no state of a button. *)
Theorem click_paints_one_position g (r column : nat) (c : color) :
  board_ok g → r < ROWS → column < COLUMNS →
  ∃ g',
    update_button_color (ROWS - 1 - r) column (set_color c g) = Ok g' ∧
    submitted_colors_of g' r = <[column := c]> (submitted_colors_of g r) ∧
    (∀ r', r' < ROWS → r' ≠ r → submitted_colors_of g' r' = submitted_colors_of g r') ∧
    state <$> button_list g' = state <$> button_list g.
Proof.
  intros (Hb & Hrows & Hlabels) Hr Hcolumn.
  set (index := (ROWS - 1 - r) * COLUMNS + column).
  destruct (lookup_lt_is_Some_2 (button_list g) index) as [b Hbutton].
  { rewrite Hb. unfold index, ROWS, COLUMNS in *. nia. }
  unfold update_button_color, set_color. simpl_game. fold index.
  rewrite Hbutton. simpl. eexists. split; [done|].
  set (g' := set_button_list _ _).
  assert (length (button_list g') = ROWS * COLUMNS) as Hb'.
  { unfold g'. simpl_game. by rewrite length_insert. }
  assert (∀ i, i ≠ index → button_list g' !! i = button_list g !! i) as Hother.
  { intros i Hi. unfold g'. simpl_game. by apply list_lookup_insert_ne. }
  split_and!.
  - apply list_eq. intros j. destruct (decide (j < COLUMNS)) as [Hj|Hj].
    + destruct (decide (j = column)) as [->|Hne].
      * rewrite list_lookup_insert_eq by (by rewrite submitted_colors_length).
        rewrite submitted_colors_lookup by done. fold index. unfold g'. simpl_game.
        rewrite list_lookup_insert_eq by (by apply lookup_lt_Some in Hbutton). done.
      * rewrite list_lookup_insert_ne by done.
        rewrite !submitted_colors_lookup by done. rewrite Hother; [done|].
        unfold index. lia.
    + rewrite !lookup_ge_None_2; [done | |].
      * rewrite length_insert, submitted_colors_length by done. lia.
      * rewrite submitted_colors_length by done. lia.
  - intros r' Hr' Hne. apply submitted_colors_ext; try done.
    intros i Hi. rewrite Hother; [done|]. intros ->.
    apply Hne. apply (in_row_inj r' r index); try done. by apply in_row_column.
  - unfold g'. simpl_game. apply list_eq. intros i.
    rewrite !list_lookup_fmap. destruct (decide (i = index)) as [->|Hne].
    + rewrite list_lookup_insert_eq by (by apply lookup_lt_Some in Hbutton).
      by rewrite Hbutton.
    + by rewrite list_lookup_insert_ne.
Qed.

End painting.

(** ** Moving to the next row *)

Section activation.
Context {T : Type} `{!Clock T}.
Implicit Types (g : MastermindGame T).

Lemma increment_current_row_next g (r : nat) :
  current_row g = Some r →
  increment_current_row g
  = Ok (set_button_list
          (Py.configure_slice (λ _, mkButton "SystemButtonFace" ACTIVE)
             (Py.configure_slice (λ b, mkButton (background b) DISABLED)
                (button_list g) (start_index r) (end_index r))
             (start_index (r + 1)) (end_index (r + 1)))
          (set_current_row (Some (r + 1)) g)).
Proof.
  intros Hr. unfold increment_current_row.
  rewrite Hr, (deactivate_current_row_started g r Hr). simpl. rewrite Hr.
  unfold activate_current_row. simpl. done.
Qed.

Lemma increment_current_row_first g :
  current_row g = None →
  increment_current_row g
  = Ok (set_button_list
          (Py.configure_slice (λ _, mkButton "SystemButtonFace" ACTIVE)
             (button_list g) (start_index 0) (end_index 0))
          (set_current_row (Some 0) g)).
Proof.
  intros Hr. unfold increment_current_row. rewrite Hr. simpl. rewrite Hr.
  unfold activate_current_row. simpl. done.
Qed.

(** The buttons of a board after the row [r'] was activated, the row
    before it (if any) being deactivated first. *)
Lemma next_row_lookup (buttons : list Button) (r' i : nat) :
  length buttons = ROWS * COLUMNS → r' < ROWS →
  ∀ previous : option nat,
    (∀ r, previous = Some r → r < ROWS ∧ r ≠ r') →
    Py.configure_slice (λ _, mkButton "SystemButtonFace" ACTIVE)
      (match previous with
       | Some r => Py.configure_slice (λ b, mkButton (background b) DISABLED)
                     buttons (start_index r) (end_index r)
       | None => buttons
       end) (start_index r') (end_index r') !! i
    = if decide (in_row r' i) then (λ _, mkButton "SystemButtonFace" ACTIVE) <$> buttons !! i
      else match previous with
           | Some r => if decide (in_row r i)
                       then (λ b, mkButton (background b) DISABLED) <$> buttons !! i
                       else buttons !! i
           | None => buttons !! i
           end.
Proof.
  intros Hlen Hr' [r|] Hprevious.
  - destruct (Hprevious r eq_refl) as [Hr Hne].
    rewrite row_configure_lookup by (by rewrite ?length_configure_slice).
    rewrite row_configure_lookup by done.
    destruct (decide (in_row r' i)) as [Hin'|Hout']; [|done].
    destruct (decide (in_row r i)) as [Hin|Hout]; [|done].
    destruct Hne. by apply (in_row_inj r r' i).
  - by rewrite row_configure_lookup.
Qed.

(** [increment_current_row] moves to the next row: the buttons of the new
    current row are active and hold no color, so that the row is not a valid
    guess and a submission is rejected until its four buttons are painted;
    the colors of every other row stay as they were. *)
Theorem new_row_is_blank g :
  let r' := match current_row g with Some r => r + 1 | None => 0 end in
  board_ok g →
  r' < ROWS →
  ∃ g',
    increment_current_row g = Ok g' ∧
    current_row g' = Some r' ∧
    submitted_colors_of g' r' = replicate COLUMNS "SystemButtonFace" ∧
    (∀ r'', r'' < ROWS → r'' ≠ r' → submitted_colors_of g' r'' = submitted_colors_of g r'') ∧
    ∀ now answer, handle_submit now answer g' = Ok (g', [ShowErrorInvalid]).
Proof.
  intros r' Hboard Hr'. pose proof Hboard as (Hb & Hrows & Hlabels).
  assert (∃ g',
    increment_current_row g = Ok g' ∧ current_row g' = Some r' ∧
    length (button_list g') = ROWS * COLUMNS ∧
    ∀ i, background <$> button_list g' !! i
         = if decide (in_row r' i) then (λ _ : Button, "SystemButtonFace" : string) <$> button_list g !! i
           else background <$> button_list g !! i) as (g' & Hrun & Hrow' & Hb' & Hbg).
  { unfold r'. destruct (current_row g) as [r|] eqn:Hr.
    - rewrite (increment_current_row_next g r Hr). eexists. split; [done|]. simpl_game.
      split; [done|]. split; [by rewrite !length_configure_slice|]. intros i.
      rewrite (next_row_lookup (button_list g) (r + 1) i Hb Hr' (Some r)).
      2:{ intros ? [= <-]. lia. }
      destruct (decide (in_row (r + 1) i)); [by destruct (button_list g !! i)|].
      destruct (decide (in_row r i)); by destruct (button_list g !! i).
    - rewrite (increment_current_row_first g Hr). eexists. split; [done|]. simpl_game.
      split; [done|]. split; [by rewrite !length_configure_slice|]. intros i.
      rewrite (next_row_lookup (button_list g) 0 i Hb Hr' None) by done.
      destruct (decide (in_row 0 i)); by destruct (button_list g !! i). }
  assert (submitted_colors_of g' r' = replicate COLUMNS "SystemButtonFace") as Hblank.
  { apply list_eq. intros j. destruct (decide (j < COLUMNS)) as [Hj|Hj].
    - rewrite submitted_colors_lookup, Hbg by done.
      rewrite decide_True by (by apply in_row_column).
      rewrite lookup_replicate_2 by done.
      destruct (lookup_lt_is_Some_2 (button_list g) ((ROWS - 1 - r') * COLUMNS + j))
        as [b ->]; [|done].
      rewrite Hb. unfold ROWS, COLUMNS in *. lia.
    - rewrite !lookup_ge_None_2; [done | |].
      + rewrite length_replicate. lia.
      + unfold submitted_colors_of. rewrite length_fmap, length_row_slice by done. lia. }
  exists g'. split_and!; try done.
  - intros r'' Hr'' Hne. apply submitted_colors_ext; try done.
    intros i Hi. rewrite Hbg, decide_False; [done|].
    intros Hi'. apply Hne. by apply (in_row_inj r'' r' i).
  - intros now answer. unfold handle_submit. rewrite Hrow'. simpl. rewrite Hblank.
    done.
Qed.

End activation.

(** ** The board over a game *)

Section board.
Context {T : Type} `{!Clock T}.
Implicit Types (g : MastermindGame T).

(** The game and the dialogs after a valid submission, in full: the score
    on the label and on the pegs of the row, the row deactivated, and then
    the win, the loss, or the next row activated. *)
Lemma handle_submit_outcome g (r : nat) (code : list color) (now t0 : T) (answer : bool) :
  playing g r code t0 →
  valid_guess (submitted_colors_of g r) →
  ∃ old c0 c1 c2 c3,
    code = [c0; c1; c2; c3] ∧
    feedback_label_list g !! (ROWS - 1 - r) = Some old ∧
    length old = 4 ∧
    let e := exact_count code (submitted_colors_of g r) in
    let c := color_count code (submitted_colors_of g r) in
    let g1 := set_feedback_label_list
                (<[ROWS - 1 - r := scored_pegs e c old]> (feedback_label_list g))
                (set_instructional_label (Feedback c e) g) in
    let deactivated := Py.configure_slice (λ b, mkButton (background b) DISABLED)
                         (button_list g) (start_index r) (end_index r) in
    e + c ≤ 4 ∧
    handle_submit now answer g
    = Ok (if decide (submitted_colors_of g r = code) then
            (set_submit_button DISABLED (set_button_list deactivated g1),
             ShowInfoWin (r + 1) (time_int (time_sub now t0)) :: offer_play_again answer)
          else if decide (r = ROWS - 1) then
            (set_submit_button DISABLED (set_button_list deactivated g1),
             ShowWarningLose c0 c1 c2 c3 :: offer_play_again answer)
          else
            (set_button_list
               (Py.configure_slice (λ _, mkButton "SystemButtonFace" ACTIVE)
                  deactivated (start_index (r + 1)) (end_index (r + 1)))
               (set_current_row (Some (r + 1)) g1), [])).
Proof.
  intros Hplaying Hvalid.
  destruct (handle_submit_valid g r code now t0 answer Hplaying Hvalid)
    as (sc & old & Hsc & Hold & Hold4 & Hscore & Hbound & ->).
  destruct Hplaying as (Hboard & Hrow & Hr & (sc' & Hsc' & Hcode) & Hlen & Ht0).
  rewrite Hsc in Hsc'. injection Hsc' as <-.
  pose proof (exact_count_full code (submitted_colors_of g r)) as Hfull.
  rewrite Hlen, submitted_colors_length in Hfull by done. specialize (Hfull eq_refl).
  destruct (four_colors code Hlen) as (c0 & c1 & c2 & c3 & Hfour).
  exists old, c0, c1, c2, c3. split_and!; try done. intros e c g1 deactivated.
  split; [done|]. fold e c. fold g1.
  destruct (decide (submitted_colors_of g r = code)) as [Hwon|Hnot].
  - rewrite bool_decide_eq_true_2 by (by apply Hfull).
    by rewrite (end_turn_won g1 now t0 answer r sc Hrow Ht0).
  - rewrite bool_decide_eq_false_2 by (by intros ?%Hfull).
    destruct (decide (r = ROWS - 1)) as [Hlast|Hlast].
    + rewrite Hfour in Hcode.
      by rewrite (end_turn_lost g1 now answer r sc c0 c1 c2 c3 Hrow Hlast Hcode).
    + unfold end_turn. rewrite decide_False by done.
      by rewrite (increment_current_row_next g1 r Hrow).
Qed.

Lemma start_game_board g (draws : nat → nat) (now : T) :
  current_row g = None →
  ∃ g',
    start_game draws now g = Ok g' ∧
    current_row g' = Some 0 ∧
    submit_button g' = ACTIVE ∧
    feedback_label_list g' = feedback_label_list g ∧
    button_list g'
    = Py.configure_slice (λ _, mkButton "SystemButtonFace" ACTIVE)
        (button_list g) (start_index 0) (end_index 0).
Proof.
  intros Hrow. unfold start_game.
  cbn -[COLUMNS COLORS Nat.modulo for_range seq increment_current_row].
  set (sc := fresh (dom (lists g))). clearbody sc.
  destruct (append_random_colors draws sc (lists g)) as (code & -> & Hlen & Hcode).
  cbn -[COLUMNS COLORS Nat.modulo increment_current_row].
  rewrite increment_current_row_first by exact Hrow.
  cbn -[COLUMNS COLORS Nat.modulo]. by eexists.
Qed.

(** Every click keeps the two invariants of the board. *)
Lemma press_board g g' (a : action) (shown : list event) :
  consistent g → one_row_open g → unscored_rows_black g →
  press a g = Ok (g', shown) →
  one_row_open g' ∧ unscored_rows_black g'.
Proof.
  intros [Hboard Hrow] Hopen Hblack Hpress.
  pose proof Hboard as (Hb & Hrows & Hlabels).
  destruct a as [draws now|c|row column|now answer]; simpl in Hpress.
  - unfold click_start, invoke in Hpress.
    destruct (decide (start_button g = DISABLED)) as [Hstart|Hstart].
    { by injection Hpress as <- <-. }
    destruct (current_row g) as [r|] eqn:Hr; [by destruct Hrow|].
    destruct (start_game_board g draws now Hr)
      as (g1 & Hrun & Hrow1 & Hsubmit1 & Hlabels1 & Hbuttons1).
    rewrite Hrun in Hpress. injection Hpress as <- <-. split.
    + intros i b. unfold open_row. rewrite Hbuttons1, Hsubmit1, Hrow1. simpl.
      rewrite row_configure_lookup by (done || unfold ROWS; lia).
      destruct (decide (in_row 0 i)) as [Hin|Hout].
      * destruct (button_list g !! i); [by intros [= <-] | done].
      * intros Hi. rewrite (Hopen i b Hi). unfold open_row. rewrite Hr.
        by destruct (decide _).
    + intros r' labels Hr' Hl _. rewrite Hlabels1 in Hl.
      apply (Hblack r' labels Hr' Hl). by rewrite Hr.
  - injection Hpress as <- <-. done.
  - unfold click_button in Hpress.
    destruct (button_list g !! (row * COLUMNS + column)) as [b0|] eqn:Hb0;
      [|by injection Hpress as <- <-].
    unfold invoke in Hpress.
    destruct (decide (state b0 = DISABLED)); [by injection Hpress as <- <-|].
    unfold update_button_color in Hpress. rewrite Hb0 in Hpress. simpl in Hpress.
    injection Hpress as <- <-. split; [|done].
    intros i b. unfold open_row. simpl_game.
    destruct (decide (i = row * COLUMNS + column)) as [->|Hne].
    + rewrite list_lookup_insert_eq by (by apply lookup_lt_Some in Hb0).
      intros [= <-]. simpl. apply (Hopen _ _ Hb0).
    + rewrite list_lookup_insert_ne by done. apply Hopen.
  - unfold click_submit, invoke in Hpress.
    destruct (decide (submit_button g = DISABLED)) as [Hsubmit|Hsubmit].
    { by injection Hpress as <- <-. }
    destruct (current_row g) as [r|] eqn:Hr; [|done].
    destruct Hrow as (Hstart & code & t0 & Hplaying).
    assert (r < ROWS) as Hlt by (by destruct Hplaying as (_ & _ & ? & _)).
    destruct (forallb (λ c, Py.contains c COLORS) (submitted_colors_of g r)) eqn:Hcheck.
    2:{ unfold handle_submit in Hpress. rewrite Hr in Hpress. simpl in Hpress.
        rewrite Hcheck in Hpress. by injection Hpress as <- <-. }
    apply valid_guess_check in Hcheck.
    destruct (handle_submit_outcome g r code now t0 answer Hplaying Hcheck)
      as (old & c0 & c1 & c2 & c3 & Hfour & Hold & Hold4 & Hbound & Hrun).
    rewrite Hrun in Hpress. clear Hrun.
    assert (∀ r', r' < ROWS → r' ≠ r → ROWS - 1 - r' ≠ ROWS - 1 - r) as Hrows_ne.
    { intros r' ? ?. unfold ROWS in *. lia. }
    assert (open_row g = Some r) as Hopen_g.
    { unfold open_row. by rewrite decide_False, Hr. }
    destruct (decide (submitted_colors_of g r = code ∨ r = ROWS - 1)) as [Hover|Hnext].
    + assert (g' = set_submit_button DISABLED
                (set_button_list
                   (Py.configure_slice (λ b, mkButton (background b) DISABLED)
                      (button_list g) (start_index r) (end_index r))
                   (set_feedback_label_list
                      (<[ROWS - 1 - r := scored_pegs
                           (exact_count code (submitted_colors_of g r))
                           (color_count code (submitted_colors_of g r)) old]>
                         (feedback_label_list g))
                      (set_instructional_label
                         (Feedback (color_count code (submitted_colors_of g r))
                            (exact_count code (submitted_colors_of g r))) g)))) as ->.
      { destruct (decide (submitted_colors_of g r = code)).
        - by injection Hpress as <- _.
        - destruct (decide (r = ROWS - 1)); [by injection Hpress as <- _|].
          by destruct Hover. }
      split.
      * intros i b. unfold open_row. simpl_game. rewrite decide_True by done.
        rewrite row_configure_lookup by done.
        destruct (decide (in_row r i)) as [Hin|Hout].
        -- destruct (button_list g !! i); [by intros [= <-] | done].
        -- intros Hi. rewrite (Hopen i b Hi), Hopen_g. by rewrite decide_False.
      * intros r' labels Hr'. simpl_game. rewrite Hr. intros Hl [Hlt'|[_ []]]; [|done].
        rewrite list_lookup_insert_ne in Hl by (apply not_eq_sym, Hrows_ne; lia).
        apply (Hblack r' labels Hr' Hl). rewrite Hr. by left.
    + assert (submitted_colors_of g r ≠ code ∧ r ≠ ROWS - 1) as [Hnot Hlast].
      { split; intros ?; apply Hnext; [by left | by right]. }
      rewrite !decide_False in Hpress by done. injection Hpress as <- <-.
      assert (r + 1 < ROWS) as Hlt' by (unfold ROWS in *; lia).
      split.
      * intros i b. unfold open_row. simpl_game. rewrite decide_False by done.
        rewrite (next_row_lookup (button_list g) (r + 1) i Hb Hlt' (Some r)).
        2:{ intros ? [= <-]. split; [done | lia]. }
        destruct (decide (in_row (r + 1) i)) as [Hin|Hout].
        { destruct (button_list g !! i); [by intros [= <-] | done]. }
        destruct (decide (in_row r i)) as [Hin|Hout'].
        { destruct (button_list g !! i); [by intros [= <-] | done]. }
        intros Hi. rewrite (Hopen i b Hi), Hopen_g. by rewrite decide_False.
      * intros r' labels Hr'. simpl_game. intros Hl Hcase.
        rewrite list_lookup_insert_ne in Hl by (apply not_eq_sym, Hrows_ne; lia).
        apply (Hblack r' labels Hr' Hl). rewrite Hr. left. lia.
Qed.

Lemma new_game_one_row_open : one_row_open (new_game (T := T)).
Proof.
  intros i b Hi. unfold new_game in Hi. simpl_game.
  apply lookup_replicate in Hi as [-> _]. done.
Qed.

Lemma new_game_unscored_rows_black : unscored_rows_black (new_game (T := T)).
Proof.
  intros r' labels Hr' Hl _. unfold new_game in Hl. simpl_game.
  by apply lookup_replicate in Hl as [-> _].
Qed.

Lemma reachable_board g :
  reachable g → one_row_open g ∧ unscored_rows_black g.
Proof.
  induction 1 as [|a g g' shown Hreachable [Hopen Hblack] Hpress].
  - split; [apply new_game_one_row_open | apply new_game_unscored_rows_black].
  - by apply (press_board g g' a shown); [apply reachable_consistent | ..].
Qed.

End board.

(** ** What the player sees *)

Section play.
Context {T : Type} `{!Clock T}.
Implicit Types (g : MastermindGame T).

(** At any time the buttons that take clicks are those of one row at most:
    a button of the play area is enabled (its state is not [DISABLED])
    exactly when the game is in progress (it has a current row and the
    submit button is not disabled) and the button belongs to the current
    row. *)
Theorem only_current_row_active g (i : nat) (b : Button) :
  reachable g →
  button_list g !! i = Some b →
  state b ≠ DISABLED ↔
  ∃ r, current_row g = Some r ∧ submit_button g ≠ DISABLED ∧ in_row r i.
Proof.
  intros [Hopen _]%reachable_board Hi. rewrite (Hopen i b Hi). unfold open_row.
  destruct (decide (submit_button g = DISABLED)) as [Hsubmit|Hsubmit].
  { split; [done|]. by intros (r & _ & ? & _). }
  destruct (current_row g) as [r|] eqn:Hr.
  - destruct (decide (in_row r i)) as [Hin|Hout].
    + split; [|done]. intros _. by exists r.
    + split; [done|]. intros (r' & [= <-] & _ & ?). done.
  - split; [done|]. by intros (r & ? & _).
Qed.

(** A click on a button of the play area outside the row being filled (a
    row scored before, a row to come, any row before the start or after
    the end of the game) changes nothing. *)
Theorem click_outside_current_row_ignored g (r' column : nat) :
  reachable g →
  r' < ROWS → column < COLUMNS →
  open_row g ≠ Some r' →
  press (PressButton (ROWS - 1 - r') column) g = Ok (g, []).
Proof.
  intros Hreachable Hr' Hcolumn Hother.
  destruct (reachable_board g Hreachable) as [Hopen _].
  simpl. unfold click_button.
  destruct (button_list g !! _) as [b|] eqn:Hb; [|done].
  unfold invoke. rewrite (Hopen _ b Hb).
  destruct (open_row g) as [r|] eqn:Hrow; [|by rewrite decide_True].
  destruct (decide (in_row r _)) as [Hin|Hout]; [|by rewrite decide_True].
  destruct Hother. f_equal.
  assert (r < ROWS) as Hr.
  { unfold open_row in Hrow. destruct (decide _); [done|].
    by destruct (reachable_playing g r Hreachable Hrow) as (? & ? & _ & _ & ? & _). }
  unfold in_row, ROWS, COLUMNS in *. lia.
Qed.

(** The pegs of a submitted row show its score exactly: [e] red pegs, then
    [c] white pegs, then black pegs up to four. *)
Theorem pegs_show_the_score g (r : nat) (code : list color) (now t0 : T) (answer : bool) :
  reachable g →
  in_progress g r code t0 →
  valid_guess (submitted_colors_of g r) →
  ∃ g' shown e c,
    handle_submit now answer g = Ok (g', shown) ∧
    (e, c) = Reference.score COLUMNS code (submitted_colors_of g r) ∧
    feedback_label_list g' !! (ROWS - 1 - r)
    = Some (replicate e "red" ++ replicate c "white" ++ replicate (4 - (e + c)) "black").
Proof.
  intros [_ Hblack]%reachable_board [Hplaying Hsubmit] Hvalid.
  destruct (handle_submit_returns g r code now t0 answer Hplaying Hvalid)
    as (g' & shown & e & c & old & c0 & c1 & c2 & c3 & Hrun & Hscore & Hbound & _ &
        Hold & Hold4 & _ & _ & _ & Hlabels & _).
  destruct Hplaying as (_ & Hrow & Hr & _).
  assert (old = replicate 4 "black") as ->.
  { apply (Hblack r old Hr Hold). rewrite Hrow. right. split; [done|]. by rewrite Hsubmit. }
  exists g', shown, e, c. split_and!; try done.
  rewrite Hlabels, list_lookup_insert_eq by (by apply lookup_lt_Some in Hold).
  unfold scored_pegs. by rewrite drop_replicate.
Qed.

(** The start button works once: from the start of the game on, a click on
    it changes nothing. *)
Theorem start_ignored_once_started g (r : nat) (draws : nat → nat) (now : T) :
  reachable g → current_row g = Some r →
  press (PressStart draws now) g = Ok (g, []).
Proof.
  intros [_ Hrow]%reachable_consistent Hr. rewrite Hr in Hrow.
  destruct Hrow as [Hstart _]. simpl. unfold click_start, invoke.
  by rewrite Hstart, decide_True.
Qed.

Lemma offer_play_again_spec (answer : bool) (x : event) :
  x ∈ offer_play_again answer ↔ x = AskPlayAgain ∨ (x = CallPlayAgain ∧ answer = true).
Proof.
  unfold offer_play_again. rewrite elem_of_cons. destruct answer.
  - rewrite list_elem_of_singleton. intuition congruence.
  - rewrite elem_of_nil. intuition congruence.
Qed.

(** The player is offered another game exactly when a valid submission ends
    the game (the row is the secret code, or it is the last row), and
    [play_again] is called exactly when the player then accepts; an invalid
    row or a turn that goes on never calls it. *)
Theorem play_again_only_when_game_ends g (r : nat) (code : list color) (now t0 : T)
    (answer : bool) :
  playing g r code t0 →
  ∃ g' shown,
    handle_submit now answer g = Ok (g', shown) ∧
    (AskPlayAgain ∈ shown ↔
     valid_guess (submitted_colors_of g r) ∧
     (submitted_colors_of g r = code ∨ r = ROWS - 1)) ∧
    (CallPlayAgain ∈ shown ↔ AskPlayAgain ∈ shown ∧ answer = true).
Proof.
  intros Hplaying.
  destruct (forallb (λ c, Py.contains c COLORS) (submitted_colors_of g r)) eqn:Hcheck.
  - apply valid_guess_check in Hcheck.
    destruct (handle_submit_outcome g r code now t0 answer Hplaying Hcheck)
      as (old & c0 & c1 & c2 & c3 & _ & _ & _ & _ & ->).
    destruct (decide (submitted_colors_of g r = code)) as [Hwon|Hnot];
      [|destruct (decide (r = ROWS - 1)) as [Hlast|Hlast]];
      eexists _, _; (split; [done|]);
      rewrite ?elem_of_cons, ?offer_play_again_spec, ?elem_of_nil;
      intuition (discriminate || congruence).
  - destruct Hplaying as (_ & Hrow & _).
    exists g, [ShowErrorInvalid]. unfold handle_submit. rewrite Hrow. simpl.
    rewrite Hcheck. split; [done|].
    assert (¬ valid_guess (submitted_colors_of g r)) as Hinvalid.
    { intros Hvalid%valid_guess_check. congruence. }
    rewrite !list_elem_of_singleton. intuition discriminate.
Qed.

(** A submission leaves the colors of the board as they are, the submitted
    row included; only the row after it, when the game goes on, is reset. *)
Theorem guess_stays_on_board g (r : nat) (code : list color) (now t0 : T) (answer : bool) :
  playing g r code t0 →
  ∃ g' shown,
    handle_submit now answer g = Ok (g', shown) ∧
    ∀ r', r' < ROWS → r' ≠ r + 1 → submitted_colors_of g' r' = submitted_colors_of g r'.
Proof.
  intros Hplaying.
  destruct (forallb (λ c, Py.contains c COLORS) (submitted_colors_of g r)) eqn:Hcheck.
  2:{ destruct Hplaying as (_ & Hrow & _).
      exists g, [ShowErrorInvalid]. unfold handle_submit. rewrite Hrow. simpl.
      by rewrite Hcheck. }
  apply valid_guess_check in Hcheck.
  destruct (handle_submit_outcome g r code now t0 answer Hplaying Hcheck)
    as (old & c0 & c1 & c2 & c3 & _ & _ & _ & _ & ->).
  destruct Hplaying as ((Hb & _) & _ & Hr & _).
  assert (∀ i, background <$>
                 Py.configure_slice (λ b, mkButton (background b) DISABLED)
                   (button_list g) (start_index r) (end_index r) !! i
               = background <$> button_list g !! i) as Hdeactivated.
  { intros i. rewrite row_configure_lookup by done.
    destruct (decide (in_row r i)); by destruct (button_list g !! i). }
  destruct (decide (submitted_colors_of g r = code)) as [Hwon|Hnot];
    [|destruct (decide (r = ROWS - 1)) as [Hlast|Hlast]];
    eexists _, _; (split; [done|]); intros r' Hr' Hne;
    apply submitted_colors_ext; simpl_game;
    rewrite ?length_configure_slice; try done; intros i Hi; try apply Hdeactivated.
  rewrite row_configure_lookup
    by (rewrite ?length_configure_slice; done || (unfold ROWS in *; lia)).
  rewrite decide_False; [apply Hdeactivated|].
  intros Hi'. apply Hne. apply (in_row_inj r' (r + 1) i); try done.
  unfold ROWS in *. lia.
Qed.

End play.

(** ** A row from the palette to the score *)

Lemma set_button_list_same {T} (g : MastermindGame T) :
  set_button_list (button_list g) (set_current_color (current_color g) g) = g.
Proof. by destruct g. Qed.

(** Painting the columns of the open row from [column] on, one palette
    click and one button click for each: every click is taken, and the
    buttons hold the chosen colors. *)
Lemma paint_row_from (g : MastermindGame Q) (r column : nat) (colors : list color) :
  reachable g →
  open_row g = Some r →
  column + length colors ≤ COLUMNS →
  ∃ buttons current,
    run (Sample.paint (ROWS - 1 - r) column colors) g
    = Ok (set_button_list buttons (set_current_color current g)) ∧
    length buttons = ROWS * COLUMNS ∧
    (∀ i, state <$> buttons !! i = state <$> button_list g !! i) ∧
    (∀ i, ¬ in_row r i → buttons !! i = button_list g !! i) ∧
    ∀ j, j < COLUMNS →
         background <$> buttons !! ((ROWS - 1 - r) * COLUMNS + j)
         = if decide (column ≤ j < column + length colors) then colors !! (j - column)
           else background <$> button_list g !! ((ROWS - 1 - r) * COLUMNS + j).
Proof.
  intros Hreachable Hopen. revert g column Hreachable Hopen.
  induction colors as [|c colors IH]; intros g column Hreachable Hopen Hcolumn.
  - exists (button_list g), (current_color g). simpl. rewrite set_button_list_same.
    destruct (reachable_consistent g Hreachable) as [(Hb & _) _].
    split_and!; try done. intros j Hj. by rewrite decide_False by lia.
  - cbn [length] in Hcolumn. cbn [Sample.paint run press]. unfold click_palette.
    cbn [mbind result_bind]. unfold set_color.
    set (g1 := set_current_color c g).
    assert (reachable g1) as Hreachable1.
    { by apply (reachable_press (PressPalette c) g g1 []). }
    destruct (reachable_consistent g1 Hreachable1) as [(Hb & _) _].
    destruct (reachable_board g1 Hreachable1) as [Hopen1 _].
    set (index := (ROWS - 1 - r) * COLUMNS + column).
    destruct (lookup_lt_is_Some_2 (button_list g1) index) as [b Hbutton].
    { rewrite Hb. unfold index, ROWS, COLUMNS in *. nia. }
    assert (state b = ACTIVE) as Hactive.
    { rewrite (Hopen1 index b Hbutton).
      replace (open_row g1) with (Some r) by done.
      rewrite decide_True; [done|]. apply in_row_column. lia. }
    assert (click_button (ROWS - 1 - r) column g1
            = Ok (set_button_list (<[index := mkButton c ACTIVE]> (button_list g)) g1, []))
      as Hclick.
    { unfold click_button. fold index. rewrite Hbutton. unfold invoke.
      rewrite Hactive, decide_False by done.
      unfold update_button_color. fold index. rewrite Hbutton. simpl.
      by rewrite Hactive. }
    rewrite Hclick. cbn [mbind result_bind].
    set (g2 := set_button_list _ g1) in *.
    assert (reachable g2) as Hreachable2.
    { by apply (reachable_press (PressButton (ROWS - 1 - r) column) g1 g2 []). }
    destruct (IH g2 (column + 1) Hreachable2) as
      (buttons & current & Hrun & Hlen & Hstates & Hother & Hrow); [done | lia |].
    exists buttons, current. rewrite Hrun. unfold g2, g1 in *. simpl_game.
    split_and!; try done.
    + intros i. rewrite Hstates. destruct (decide (i = index)) as [->|Hne].
      * rewrite list_lookup_insert_eq by (by apply lookup_lt_Some in Hbutton).
        rewrite Hbutton. simpl. by rewrite Hactive.
      * by rewrite list_lookup_insert_ne.
    + intros i Hi. rewrite Hother by done. apply list_lookup_insert_ne.
      intros <-. apply Hi, in_row_column. lia.
    + intros j Hj. rewrite Hrow by done. simpl.
      destruct (decide (j = column)) as [->|Hne].
      * rewrite decide_False, decide_True by lia. fold index.
        rewrite list_lookup_insert_eq by (by apply lookup_lt_Some in Hbutton).
        by rewrite Nat.sub_diag.
      * destruct (decide (column + 1 ≤ j < column + 1 + length colors)).
        -- rewrite decide_True by lia.
           replace (j - column) with (S (j - (column + 1))) by lia. done.
        -- rewrite decide_False by lia. rewrite list_lookup_insert_ne; [done|].
           unfold index, ROWS, COLUMNS. lia.
Qed.

(** Painting the four columns of the row being filled: the row holds the
    chosen colors, and the game is otherwise as it was. *)
Lemma paint_row_full (g : MastermindGame Q) (r : nat) (code colors : list color) (t0 : Q) :
  reachable g →
  in_progress g r code t0 →
  length colors = COLUMNS →
  ∃ g1,
    run (Sample.paint (ROWS - 1 - r) 0 colors) g = Ok g1 ∧
    reachable g1 ∧
    in_progress g1 r code t0 ∧
    submitted_colors_of g1 r = colors.
Proof.
  intros Hreachable [Hplaying Hsubmit] Hlen.
  pose proof Hplaying as (Hboard & Hrow & Hr & Hsecret & Hcode & Ht0).
  assert (open_row g = Some r) as Hopen.
  { unfold open_row. by rewrite Hsubmit, decide_False. }
  destruct (paint_row_from g r 0 colors Hreachable Hopen)
    as (buttons & current & Hrun & Hbuttons & _ & _ & Hpainted); [lia|].
  set (g1 := set_button_list buttons (set_current_color current g)) in *.
  exists g1. split_and!; try done.
  - by apply (reachable_run g g1 (Sample.paint (ROWS - 1 - r) 0 colors)).
  - split; [|done]. apply (playing_frame g g1 r r code t0); try done.
    destruct Hboard as (_ & Hrows & Hlabels). by split_and!.
  - apply list_eq. intros j. destruct (decide (j < COLUMNS)) as [Hj|Hj].
    + rewrite submitted_colors_lookup by done. unfold g1. simpl_game.
      rewrite Hpainted, decide_True by lia. f_equal. lia.
    + rewrite !lookup_ge_None_2; [done | lia |].
      unfold submitted_colors_of. rewrite length_fmap, length_row_slice by done. lia.
Qed.

Lemma click_submit_active {T} `{!Clock T} (g : MastermindGame T) (now : T) (answer : bool) :
  submit_button g = ACTIVE →
  press (PressSubmit now answer) g = handle_submit now answer g.
Proof.
  intros Hsubmit. simpl. unfold click_submit, invoke. by rewrite Hsubmit, decide_False.
Qed.

(** What the player paints is what is scored: after a palette click and a
    button click for each column of the row being filled, the row holds the
    chosen colors, and the submission shows the score of these colors
    against the secret code. *)
Theorem painted_row_is_scored (g : MastermindGame Q) (r : nat) (code colors : list color)
    (now t0 : Q) (answer : bool) :
  reachable g →
  in_progress g r code t0 →
  length colors = COLUMNS →
  valid_guess colors →
  ∃ g1 g' shown e c,
    run (Sample.paint (ROWS - 1 - r) 0 colors) g = Ok g1 ∧
    submitted_colors_of g1 r = colors ∧
    press (PressSubmit now answer) g1 = Ok (g', shown) ∧
    (e, c) = Reference.score COLUMNS code colors ∧
    instructional_label g' = Feedback c e.
Proof.
  intros Hreachable Hprogress Hlen Hvalid.
  destruct (paint_row_full g r code colors t0 Hreachable Hprogress Hlen)
    as (g1 & Hrun & _ & [Hplaying1 Hsubmit1] & Hguess).
  destruct (handle_submit_returns g1 r code now t0 answer Hplaying1)
    as (g' & shown & e & c & old & c0 & c1 & c2 & c3 & Hsubmitted & Hscore & _ & _ &
        _ & _ & _ & _ & _ & _ & Hlabel & _); [by rewrite Hguess|].
  exists g1, g', shown, e, c. rewrite Hguess in Hscore. split_and!; try done.
  by rewrite click_submit_active.
Qed.

(** ** Restarting *)

Section restart.
Context {T : Type} `{!Clock T}.

Lemma handler_game_reachable (handler : GameHandler T) :
  handler_reachable handler → reachable (game handler).
Proof.
  induction 1 as [|a handler handler' shown _ IH Hpress].
  - apply reachable_new.
  - unfold handler_press in Hpress.
    destruct (press a (game handler)) as [[g shown']|e] eqn:Hgame; [|done].
    simpl in Hpress. injection Hpress as <- <-.
    destruct (called_play_again shown'); simpl.
    + apply reachable_new.
    + by apply (reachable_press a (game handler) g shown').
Qed.


End restart.

(** ** Losing *)

Lemma run_app {T} `{!Clock T} (l k : list action) (g : MastermindGame T) :
  run (l ++ k) g = g' ← run l g; run k g'.
Proof.
  revert g. induction l as [|a l IH]; intros g; simpl; [done|].
  destruct (press a g) as [[g1 shown]|e]; simpl; [apply IH | done].
Qed.

Section losing.
Context {T : Type} `{!Clock T}.
Implicit Types (g : MastermindGame T).

(** The game is lost exactly when a valid row that is not the secret code is
    submitted on the last row; the dialog then shows the secret code. *)
Theorem loss_iff_last_row_wrong g (r : nat) (code : list color) (now t0 : T)
    (answer : bool) :
  playing g r code t0 →
  valid_guess (submitted_colors_of g r) →
  ∃ g' shown,
    handle_submit now answer g = Ok (g', shown) ∧
    ((∃ c0 c1 c2 c3, ShowWarningLose c0 c1 c2 c3 ∈ shown) ↔
     r = ROWS - 1 ∧ submitted_colors_of g r ≠ code) ∧
    ∀ c0 c1 c2 c3, ShowWarningLose c0 c1 c2 c3 ∈ shown → code = [c0; c1; c2; c3].
Proof.
  intros Hplaying Hvalid.
  destruct (handle_submit_outcome g r code now t0 answer Hplaying Hvalid)
    as (old & c0 & c1 & c2 & c3 & Hfour & _ & _ & _ & ->).
  assert (∀ x0 x1 x2 x3, ShowWarningLose x0 x1 x2 x3 ∉ offer_play_again answer) as Hoffer.
  { intros x0 x1 x2 x3 Hin%offer_play_again_spec. by destruct Hin as [|[]]. }
  destruct (decide (submitted_colors_of g r = code)) as [Hwon|Hnot];
    [|destruct (decide (r = ROWS - 1)) as [Hlast|Hlast]];
    eexists _, _; (split; [done|]); split.
  - split; [|by intros [_ ?]]. intros (x0 & x1 & x2 & x3 & Hin).
    apply elem_of_cons in Hin as [?|Hin]; [done|]. by apply Hoffer in Hin.
  - intros x0 x1 x2 x3 Hin.
    apply elem_of_cons in Hin as [?|Hin]; [done|]. by apply Hoffer in Hin.
  - split; [done|]. intros _. exists c0, c1, c2, c3. apply elem_of_cons. by left.
  - intros x0 x1 x2 x3 Hin.
    apply elem_of_cons in Hin as [[= -> -> -> ->]|Hin]; [done|]. by apply Hoffer in Hin.
  - split; [|by intros [? _]]. intros (x0 & x1 & x2 & x3 & Hin). by apply elem_of_nil in Hin.
  - intros x0 x1 x2 x3 Hin. by apply elem_of_nil in Hin.
Qed.

End losing.

(** One turn with a wrong guess: the game goes on with the next row, or is
    over on the last row. *)
Lemma wrong_turn (g : MastermindGame Q) (r : nat) (code : list color) (t0 : Q)
    (guess : list color * Q * bool) :
  reachable g →
  in_progress g r code t0 →
  wrong_guess code guess →
  ∃ g',
    run (turn r guess) g = Ok g' ∧
    reachable g' ∧
    if decide (r = ROWS - 1)
    then current_row g' = Some r ∧ submit_button g' = DISABLED
    else in_progress g' (r + 1) code t0.
Proof.
  destruct guess as [[colors now] answer].
  intros Hreachable Hprogress (Hlen & Hvalid & Hwrong).
  cbn [fst snd] in Hlen, Hvalid, Hwrong.
  destruct (paint_row_full g r code colors t0 Hreachable Hprogress Hlen)
    as (g1 & Hrun & Hreachable1 & [Hplaying1 Hsubmit1] & Hguess).
  destruct (handle_submit_returns g1 r code now t0 answer Hplaying1)
    as (g' & shown & e & c & old & c0 & c1 & c2 & c3 & Hsubmitted & Hscore & Hbound & _ &
        Hold & _ & Hsecret' & Hlists' & Hstart' & Hlabels' & _ & Hbuttons' & _ & Hcase);
    [by rewrite Hguess|].
  assert (press (PressSubmit now answer) g1 = Ok (g', shown)) as Hpress.
  { by rewrite click_submit_active. }
  exists g'. unfold turn. rewrite run_app, Hrun. cbn [mbind result_bind run].
  rewrite Hpress. cbn [mbind result_bind]. split; [done|].
  split; [by apply (reachable_press (PressSubmit now answer) g1 g' shown)|].
  pose proof Hplaying1 as (Hboard1 & _ & Hr & _ & Hcode & _).
  assert (e ≠ COLUMNS) as He.
  { intros He. apply Hwrong.
    pose proof (reference_score_counts code colors) as Href.
    rewrite Hguess in Hscore. rewrite Hcode, <- Hscore in Href.
    specialize (Href ltac:(lia)). injection Href as He' _.
    apply (exact_count_full code colors); lia. }
  rewrite decide_False in Hcase by done.
  destruct (decide (r = ROWS - 1)) as [Hlast|Hlast].
  - by destruct Hcase as (_ & ? & ?).
  - destruct Hcase as (_ & Hrow' & Hsubmit'). split; [|by rewrite Hsubmit'].
    apply (playing_frame g1 g' r (r + 1) code t0); try done.
    + by apply (board_ok_scored g1 g' r e c old).
    + unfold ROWS in *. lia.
Qed.

(** A player who never submits the secret code has exactly [ROWS] turns:
    after fewer turns than there are rows left the game is in progress on
    the row after the last one submitted; after a turn on each row left the
    game is over on row [ROWS - 1], the submit button disabled. *)
Theorem wrong_guesses_use_up_the_rows (g : MastermindGame Q) (r : nat) (code : list color)
    (t0 : Q) (guesses : list (list color * Q * bool)) :
  reachable g →
  in_progress g r code t0 →
  Forall (wrong_guess code) guesses →
  r + length guesses ≤ ROWS →
  ∃ g',
    run (turns r guesses) g = Ok g' ∧
    if decide (r + length guesses = ROWS)
    then current_row g' = Some (ROWS - 1) ∧ submit_button g' = DISABLED
    else in_progress g' (r + length guesses) code t0.
Proof.
  intros Hreachable Hprogress Hwrong. revert g r Hreachable Hprogress.
  induction Hwrong as [|guess guesses Hguess _ IH]; intros g r Hreachable Hprogress Hrows.
  - exists g. split; [done|]. simpl. rewrite Nat.add_0_r.
    pose proof Hprogress as [(_ & _ & Hr & _) _].
    by rewrite decide_False by lia.
  - cbn [length turns] in *.
    destruct (wrong_turn g r code t0 guess Hreachable Hprogress Hguess)
      as (g1 & Hrun & Hreachable1 & Hcase).
    rewrite run_app, Hrun. cbn [mbind result_bind].
    destruct (decide (r = ROWS - 1)) as [Hlast|Hlast].
    + destruct guesses as [|guess' guesses]; [|simpl in Hrows; unfold ROWS in *; lia].
      exists g1. split; [done|]. cbn [length].
      rewrite decide_True by (unfold ROWS in *; lia). by rewrite <- Hlast.
    + destruct (IH g1 (r + 1) Hreachable1 Hcase) as (g' & Hrun' & Hcase'); [lia|].
      exists g'. split; [done|].
      replace (r + S (length guesses)) with (r + 1 + length guesses) by lia. done.
Qed.

(** ** Samples of the board *)

Lemma click_paints_one_position_witness :
  board_ok Sample.near ∧
  ∃ g',
    update_button_color (ROWS - 1 - 0) 3 (set_color "green" Sample.near) = Ok g' ∧
    submitted_colors_of g' 0 = <[3 := "green"]> (submitted_colors_of Sample.near 0) ∧
    (∀ r', r' < ROWS → r' ≠ 0 →
           submitted_colors_of g' r' = submitted_colors_of Sample.near r') ∧
    state <$> button_list g' = state <$> button_list Sample.near.
Proof.
  assert (board_ok Sample.near) as Hboard by sample_playing.
  split; [exact Hboard|].
  apply (click_paints_one_position Sample.near 0 3 "green");
    [exact Hboard | unfold ROWS; lia | unfold COLUMNS; lia].
Defined.

Lemma new_row_is_blank_witness :
  board_ok Sample.near ∧
  current_row Sample.near = Some 0 ∧
  ∃ g',
    increment_current_row Sample.near = Ok g' ∧
    current_row g' = Some 1 ∧
    submitted_colors_of g' 1 = replicate COLUMNS "SystemButtonFace" ∧
    (∀ r'', r'' < ROWS → r'' ≠ 1 →
            submitted_colors_of g' r'' = submitted_colors_of Sample.near r'') ∧
    ∀ now answer, handle_submit now answer g' = Ok (g', [ShowErrorInvalid]).
Proof.
  assert (board_ok Sample.near) as Hboard by sample_playing.
  split; [exact Hboard|]. split; [reflexivity|].
  apply (new_row_is_blank Sample.near); [exact Hboard | vm_compute; lia].
Defined.

Lemma only_current_row_active_witness :
  reachable Sample.near ∧
  button_list Sample.near !! 57 = Some (mkButton "red" ACTIVE) ∧
  (state (mkButton "red" ACTIVE) ≠ DISABLED ↔
   ∃ r, current_row Sample.near = Some r ∧ submit_button Sample.near ≠ DISABLED ∧
        in_row r 57).
Proof.
  split; [apply reachable_play|]. split; [reflexivity|].
  apply (only_current_row_active Sample.near 57 (mkButton "red" ACTIVE));
    [apply reachable_play | reflexivity].
Defined.

Lemma click_outside_current_row_ignored_witness :
  reachable Sample.near ∧
  open_row Sample.near = Some 0 ∧
  press (PressButton (ROWS - 1 - 1) 2) Sample.near = Ok (Sample.near, []).
Proof.
  split; [apply reachable_play|]. split; [reflexivity|].
  apply (click_outside_current_row_ignored Sample.near 1 2);
    [apply reachable_play | unfold ROWS; lia | unfold COLUMNS; lia |].
  vm_compute. discriminate.
Defined.

Lemma pegs_show_the_score_witness :
  reachable Sample.near ∧
  in_progress Sample.near 0 Sample.secret Sample.t0 ∧
  valid_guess (submitted_colors_of Sample.near 0) ∧
  ∃ g' shown e c,
    handle_submit Sample.t1 false Sample.near = Ok (g', shown) ∧
    (e, c) = Reference.score COLUMNS Sample.secret (submitted_colors_of Sample.near 0) ∧
    feedback_label_list g' !! (ROWS - 1 - 0)
    = Some (replicate e "red" ++ replicate c "white" ++ replicate (4 - (e + c)) "black").
Proof.
  split; [apply reachable_play|]. split; [sample_playing|].
  split; [apply valid_guess_check; reflexivity|].
  apply (pegs_show_the_score Sample.near 0 Sample.secret Sample.t1 Sample.t0 false).
  - apply reachable_play.
  - sample_playing.
  - apply valid_guess_check. reflexivity.
Defined.

Lemma start_ignored_once_started_witness :
  reachable Sample.near ∧
  current_row Sample.near = Some 0 ∧
  press (PressStart (λ _, 5) Sample.t2) Sample.near = Ok (Sample.near, []).
Proof.
  split; [apply reachable_play|]. split; [reflexivity|].
  apply (start_ignored_once_started Sample.near 0 (λ _, 5) Sample.t2);
    [apply reachable_play | reflexivity].
Defined.

Lemma play_again_only_when_game_ends_witness :
  playing Sample.winning 0 Sample.secret Sample.t0 ∧
  ∃ g' shown,
    handle_submit Sample.t1 true Sample.winning = Ok (g', shown) ∧
    (AskPlayAgain ∈ shown ↔
     valid_guess (submitted_colors_of Sample.winning 0) ∧
     (submitted_colors_of Sample.winning 0 = Sample.secret ∨ 0 = ROWS - 1)) ∧
    (CallPlayAgain ∈ shown ↔ AskPlayAgain ∈ shown ∧ true = true).
Proof.
  split; [sample_playing|].
  apply (play_again_only_when_game_ends Sample.winning 0 Sample.secret
           Sample.t1 Sample.t0 true).
  sample_playing.
Defined.

Lemma guess_stays_on_board_witness :
  playing Sample.near 0 Sample.secret Sample.t0 ∧
  ∃ g' shown,
    handle_submit Sample.t1 false Sample.near = Ok (g', shown) ∧
    ∀ r', r' < ROWS → r' ≠ 0 + 1 →
          submitted_colors_of g' r' = submitted_colors_of Sample.near r'.
Proof.
  split; [sample_playing|].
  apply (guess_stays_on_board Sample.near 0 Sample.secret Sample.t1 Sample.t0 false).
  sample_playing.
Defined.

Lemma painted_row_is_scored_witness :
  reachable (Sample.play Sample.start) ∧
  in_progress (Sample.play Sample.start) 0 Sample.secret Sample.t0 ∧
  valid_guess ["blue"; "red"; "pink"; "cyan"] ∧
  ∃ g1 g' shown e c,
    run (Sample.paint (ROWS - 1 - 0) 0 ["blue"; "red"; "pink"; "cyan"])
      (Sample.play Sample.start) = Ok g1 ∧
    submitted_colors_of g1 0 = ["blue"; "red"; "pink"; "cyan"] ∧
    press (PressSubmit Sample.t1 false) g1 = Ok (g', shown) ∧
    (e, c) = Reference.score COLUMNS Sample.secret ["blue"; "red"; "pink"; "cyan"] ∧
    instructional_label g' = Feedback c e.
Proof.
  split; [apply reachable_play|]. split; [sample_playing|].
  split; [apply valid_guess_check; reflexivity|].
  apply (painted_row_is_scored (Sample.play Sample.start) 0 Sample.secret
           ["blue"; "red"; "pink"; "cyan"] Sample.t1 Sample.t0 false).
  - apply reachable_play.
  - sample_playing.
  - reflexivity.
  - apply valid_guess_check. reflexivity.
Defined.


Lemma loss_iff_last_row_wrong_witness :
  playing Sample.last_row 14 Sample.secret Sample.t0 ∧
  valid_guess (submitted_colors_of Sample.last_row 14) ∧
  ∃ g' shown,
    handle_submit Sample.t1 false Sample.last_row = Ok (g', shown) ∧
    ((∃ c0 c1 c2 c3, ShowWarningLose c0 c1 c2 c3 ∈ shown) ↔
     14 = ROWS - 1 ∧ submitted_colors_of Sample.last_row 14 ≠ Sample.secret) ∧
    ∀ c0 c1 c2 c3, ShowWarningLose c0 c1 c2 c3 ∈ shown → Sample.secret = [c0; c1; c2; c3].
Proof.
  split; [sample_playing|]. split; [apply valid_guess_check; reflexivity|].
  apply (loss_iff_last_row_wrong Sample.last_row 14 Sample.secret Sample.t1 Sample.t0 false).
  - sample_playing.
  - apply valid_guess_check. reflexivity.
Defined.

Lemma wrong_guesses_use_up_the_rows_witness :
  reachable (Sample.play Sample.start) ∧
  in_progress (Sample.play Sample.start) 0 Sample.secret Sample.t0 ∧
  ∃ g',
    run (turns 0 [(["cyan"; "cyan"; "cyan"; "cyan"], Sample.t1, false);
                  (["blue"; "red"; "pink"; "cyan"], Sample.t2, false)])
      (Sample.play Sample.start) = Ok g' ∧
    if decide (0 + 2 = ROWS)
    then current_row g' = Some (ROWS - 1) ∧ submit_button g' = DISABLED
    else in_progress g' (0 + 2) Sample.secret Sample.t0.
Proof.
  split; [apply reachable_play|]. split; [sample_playing|].
  apply (wrong_guesses_use_up_the_rows (Sample.play Sample.start) 0 Sample.secret Sample.t0
           [(["cyan"; "cyan"; "cyan"; "cyan"], Sample.t1, false);
            (["blue"; "red"; "pink"; "cyan"], Sample.t2, false)]).
  - apply reachable_play.
  - sample_playing.
  - repeat constructor; try (apply valid_guess_check; reflexivity); discriminate.
  - unfold ROWS. simpl. lia.
Defined.
